(** * pkg/storage: key resolution, metadata translation, object operations
      and the S3-style listing, embedded from [storage.go].

    Go strings are byte sequences and are taken as [string]; Go maps that are
    only looked up and updated are [gmap]s; a map that a [range] loop walks is
    taken as the list of its entries in the order the loop visits them, so a
    statement over every such list covers every iteration order. A run-time
    panic (index out of range, failed type assertion) is an explicit outcome. *)

From Stdlib Require Import ZArith Ascii String List Bool Lia.
From stdpp Require Import base option list gmap strings.

Local Open Scope Z_scope.

(** ** The Go library functions the package calls *)

Module GoStrings.

Definition bytes (s : string) : list ascii := list_ascii_of_string s.
Definition of_bytes (l : list ascii) : string := string_of_list_ascii l.

(** [strings.ToLower] on its ASCII path: 'A'..'Z' are moved to 'a'..'z' and
    every other byte is kept (header field names are ASCII). *)
Definition lower_byte (c : ascii) : ascii :=
  let n := nat_of_ascii c in
  if ((65 <=? n) && (n <=? 90))%nat then ascii_of_nat (n + 32) else c.

Fixpoint ToLower (s : string) : string :=
  match s with
  | EmptyString => EmptyString
  | String c s' => String (lower_byte c) (ToLower s')
  end.

(** [strings.HasPrefix(s, prefix)]. *)
Fixpoint HasPrefix (s prefix : string) {struct prefix} : bool :=
  match prefix, s with
  | EmptyString, _ => true
  | String _ _, EmptyString => false
  | String p prefix', String c s' => Ascii.eqb c p && HasPrefix s' prefix'
  end.

(** [s[n:]] for [n <= len(s)]. *)
Fixpoint from (n : nat) (s : string) : string :=
  match n, s with
  | O, _ => s
  | S _, EmptyString => EmptyString
  | S n', String _ s' => from n' s'
  end.

(** [strings.HasSuffix(s, suffix)]:
    [len(s) >= len(suffix) && s[len(s)-len(suffix):] == suffix]. *)
Definition HasSuffix (s suffix : string) : bool :=
  (String.length suffix <=? String.length s)%nat
  && String.eqb (from (String.length s - String.length suffix) s) suffix.

(** [strings.TrimPrefix(s, prefix)]. *)
Definition TrimPrefix (s prefix : string) : string :=
  if HasPrefix s prefix then from (String.length prefix) s else s.

(** [strings.Replace(s, old, new, 1)] for a non-empty [old]: the first
    occurrence of [old], if there is one, is replaced. *)
Fixpoint Replace1 (s old new : string) : string :=
  if HasPrefix s old then new +:+ from (String.length old) s
  else match s with
       | EmptyString => EmptyString
       | String c s' => String c (Replace1 s' old new)
       end.

(** [strings.Split(s, sep)] for a one-byte separator: the pieces between
    the separators, [n+1] pieces for [n] separators. *)
Fixpoint Split (s : string) (sep : ascii) : list string :=
  match s with
  | EmptyString => [EmptyString]
  | String c s' =>
      if Ascii.eqb c sep then EmptyString :: Split s' sep
      else match Split s' sep with
           | piece :: pieces => String c piece :: pieces
           | [] => [String c EmptyString]
           end
  end.

(** [strings.Join(elems, sep)]. *)
Definition Join (elems : list string) (sep : string) : string :=
  String.concat sep elems.

(** [s[len(s)-1]], out of range on the empty string. *)
Definition last_byte (s : string) : option ascii := last (bytes s).

End GoStrings.

Module GoPath.
Import GoStrings.

Definition slash : ascii := "/"%char.
Definition dot : ascii := "."%char.

Definition is_slash (c : ascii) : bool := Ascii.eqb c slash.

(** [true] when the read position is at the end or on a separator. *)
Definition at_boundary (p : list ascii) : bool :=
  match p with
  | [] => true
  | c :: _ => is_slash c
  end.

(** The bytes of the path element that starts at the read position, and
    what follows it: [for ; r < n && path[r] != '/'; r++]. *)
Fixpoint element (p : list ascii) : list ascii * list ascii :=
  match p with
  | [] => ([], [])
  | c :: p' =>
      if is_slash c then ([], p)
      else let '(e, q) := element p' in (c :: e, q)
  end.

(** The write buffer [out] of [path.Clean] is held last byte first, so
    [out.w] is its length, [out.append(c)] is [c :: out] and [out.w--]
    drops the head. [backtrack] is the .. case:
    [out.w--; for out.w > dotdot && out.index(out.w) != '/' { out.w-- }],
    where [out.index(out.w)] reads the byte just dropped. *)
Fixpoint backtrack (dotdot : nat) (out : list ascii) : list ascii :=
  match out with
  | [] => []
  | c :: out' =>
      if (dotdot <? length out')%nat && negb (is_slash c)
      then backtrack dotdot out'
      else out'
  end.

(** The loop [for r < n] of [path.Clean]; [p] is [path[r:]]. Every turn
    reads at least one byte, so [length p] turns are enough. *)
Fixpoint clean_loop (fuel : nat) (rooted : bool) (p out : list ascii)
    (dotdot : nat) : list ascii :=
  match fuel with
  | O => out
  | S fuel' =>
      match p with
      | [] => out
      | c :: p1 =>
          if is_slash c then
            clean_loop fuel' rooted p1 out dotdot
          else if Ascii.eqb c dot && at_boundary p1 then
            clean_loop fuel' rooted p1 out dotdot
          else if Ascii.eqb c dot && Ascii.eqb (hd slash p1) dot
                  && at_boundary (tl p1) then
            let p2 := tl p1 in
            if (dotdot <? length out)%nat then
              clean_loop fuel' rooted p2 (backtrack dotdot out) dotdot
            else if negb rooted then
              let out1 := if (0 <? length out)%nat then slash :: out else out in
              let out2 := dot :: dot :: out1 in
              clean_loop fuel' rooted p2 out2 (length out2)
            else
              clean_loop fuel' rooted p2 out dotdot
          else
            let out1 :=
              if (rooted && negb (length out =? 1)%nat)
                 || (negb rooted && negb (length out =? 0)%nat)
              then slash :: out else out in
            let '(e, q) := element p in
            clean_loop fuel' rooted q (rev e ++ out1) dotdot
      end
  end.

(** [path.Clean]. *)
Definition Clean (path : string) : string :=
  match bytes path with
  | [] => "."
  | c :: p1 =>
      let rooted := is_slash c in
      let out :=
        if rooted then clean_loop (length p1) true p1 [slash] 1
        else clean_loop (S (length p1)) false (c :: p1) [] 0 in
      match out with
      | [] => "."
      | _ => of_bytes (rev out)
      end
  end.

(** [path.Join]: the elements from the first non-empty one on are joined
    with separators and cleaned; no non-empty element gives "". *)
Fixpoint Join (elem : list string) : string :=
  match elem with
  | [] => ""
  | e :: elem' =>
      if String.eqb e "" then Join elem'
      else Clean (GoStrings.Join elem "/")
  end.

(** [path.Ext]: scanning back from the end, the suffix from the last dot
    of the last element on. [rp] is the unread part, last byte first. *)
Fixpoint ext_scan (rp acc : list ascii) : list ascii :=
  match rp with
  | [] => []
  | c :: rp' =>
      if is_slash c then []
      else if Ascii.eqb c dot then c :: acc
      else ext_scan rp' (c :: acc)
  end.

Definition Ext (path : string) : string :=
  of_bytes (ext_scan (rev (bytes path)) []).

End GoPath.

(** ** Outcomes of running Go code *)

(** The run-time panics the package can raise: an index out of range and a
    failed type assertion. *)
Inductive panic := IndexOutOfRange | TypeAssertion.

(** A call either returns or panics. *)
Inductive run (A : Type) :=
  | Done (a : A)
  | Panic (p : panic).
Arguments Done {A} a.
Arguments Panic {A} p.

#[global] Instance run_ret : MRet run := fun A a => Done a.
#[global] Instance run_bind : MBind run := fun A B k m =>
  match m with
  | Done a => k a
  | Panic p => Panic p
  end.

(** ** The collaborators of the package *)

Module stow.

(** [stow.ErrNotFound] is the one error the package tells apart. *)
Inductive error := ErrNotFound | ErrOther (msg : string).

Definition is_ErrNotFound (e : error) : bool :=
  match e with ErrNotFound => true | ErrOther _ => false end.

(** A Go [(T, error)] result of which only one side is used. *)
Inductive result (A : Type) :=
  | Ok (a : A)
  | Err (e : error).
Arguments Ok {A} a.
Arguments Err {A} e.

(** A metadata value, [interface{}] in the source. *)
Inductive Value := VString (s : string) | VBool (b : bool) | VNum (n : Z).

(** [v.(string)]. *)
Definition as_string (v : Value) : run string :=
  match v with VString s => Done s | _ => Panic TypeAssertion end.

(** [v.(bool)]. *)
Definition as_bool (v : Value) : run bool :=
  match v with VBool b => Done b | _ => Panic TypeAssertion end.

(** [m[k]] on the entries of a map. *)
Fixpoint mget {V} (k : string) (m : list (string * V)) : option V :=
  match m with
  | [] => None
  | (k', v) :: m' => if String.eqb k k' then Some v else mget k m'
  end.

(** An instant; only its formatting, done by the runtime, is observed. *)
Definition Time := Z.

(** An [io.ReadCloser], named by the bytes it yields. *)
Definition Stream := string.

(** [stow.Item], by what its methods answer. [Size], [ETag] and [LastMod]
    keep the value next to the error because [List] uses the value whatever
    the error is. *)
Record Item := {
  ID : string;
  Name : string;
  Size : Z * option error;
  ETag : string * option error;
  LastMod : Time * option error;
  Metadata : result (list (string * Value));
  Open : result Stream
}.

(** [stow.Container], by what its methods answer: [GetItem] is its method
    [Item], the other two keep their names. A container is asked at most
    once for each answer during one operation. *)
Record Container := {
  GetItem : string -> result Item;
  Items : string -> string -> Z -> result (list Item * string);
  RemoveItem : string -> option error
}.

(** [stow.Location]: [GetContainer] is its method [Container]. *)
Record Location := {
  GetContainer : string -> result Container;
  CreateContainer : string -> result Container
}.

(** The [stow.ConfigMap] built for each kind, by the values it holds. *)
Inductive Config :=
  | ConfigNil
  | ConfigLocal (path allowMetadata : string)
  | ConfigHttp (url : string) (headers : list (string * string))
  | ConfigS3 (accessKey secretKey region endpoint : string)
  | ConfigLocalMeta (path : string)
  | ConfigB2 (account key : string).

End stow.

Module config.
(** Modelled from the spec: the configuration package is not among the
    sources. A storage configuration is its kind, the fields of that kind
    and the hash that identifies the whole. *)
Record Storage := {
  Kind : string;
  RootPath : string;
  Bucket : string;
  PathPrefix : string;
  Url : string;
  Headers : list (string * string);
  AccessKey : string;
  SecretAccessKey : string;
  Region : string;
  Endpoint : string;
  Account : string;
  Key : string;
  Hash : string
}.
End config.

Module object.
(** Modelled from the spec: the object package is not among the sources. A
    file object is the logical reference every operation takes: bucket, key,
    the path of its URI ([obj.Uri.Path]) and its storage configuration. *)
Record FileObject := {
  Bucket : string;
  Key : string;
  UriPath : string;
  Storage : config.Storage
}.
End object.

(** The document [List] builds: [contentXML], [commonPrefixXML] and
    [listBucketResult] of the source, with [cKey], [cETag], [cSize],
    [cpPrefix] and [lName] for the fields Key, ETag, Size, Prefix and Name. *)
Record contentXML := {
  cKey : string;
  StorageClass : string;
  LastModified : string;
  cETag : string;
  cSize : Z
}.

Record commonPrefixXML := { cpPrefix : string }.

Record listBucketResult := {
  lName : string;
  Prefix : string;
  Marker : string;
  MaxKeys : Z;
  IsTruncated : bool;
  Contents : list contentXML;
  CommonPrefixes : list commonPrefixXML
}.

Module response.

(** Modelled from the spec: what a response carries as content, a stream, a
    text, the report of an error or a marshalled buffer. *)
Inductive Body :=
  | NoBody
  | Reader (s : stow.Stream)
  | Text (s : string)
  | ErrorBody (e : stow.error)
  | XMLBuf (doc : listBucketResult).

(** Modelled from the spec: the response package is not among the sources.
    An outbound representation is a status code, a header set, a content
    length and a content stream or buffer. Header names are case-insensitive
    and the header set is keyed by the lower-cased name. A buffer made by
    [xml.Marshal] is named by the document it encodes. *)
Record Response := {
  StatusCode : Z;
  Headers : gmap string string;
  ContentLength : Z;
  body : Body
}.

(** Modelled from the spec: [res.Set(name, value)] puts one header. *)
Definition Set_ (r : Response) (name value : string) : Response :=
  {| StatusCode := StatusCode r;
     Headers := <[GoStrings.ToLower name := value]> (Headers r);
     ContentLength := ContentLength r;
     body := body r |}.

(** Modelled from the spec: the content type is the header Content-Type. *)
Definition SetContentType (r : Response) (ct : string) : Response :=
  Set_ r "Content-Type" ct.

(** [res.ContentLength = n]. *)
Definition SetContentLength (r : Response) (n : Z) : Response :=
  {| StatusCode := StatusCode r;
     Headers := Headers r;
     ContentLength := n;
     body := body r |}.

(** The content type a response carries, if any. *)
Definition ContentType (r : Response) : option string :=
  Headers r !! "content-type".

(** Modelled from the spec: a response around a stream (or none) whose
    length is not known yet. *)
Definition New (statusCode : Z) (stream : option stow.Stream) : Response :=
  {| StatusCode := statusCode;
     Headers := ∅;
     ContentLength := -1;
     body := match stream with Some s => Reader s | None => NoBody end |}.

(** Modelled from the spec: a response with an empty body. *)
Definition NewNoContent (statusCode : Z) : Response :=
  {| StatusCode := statusCode; Headers := ∅; ContentLength := 0; body := NoBody |}.

(** Modelled from the spec: a response whose body is the given text. *)
Definition NewString (statusCode : Z) (s : string) : Response :=
  {| StatusCode := statusCode;
     Headers := ∅;
     ContentLength := Z.of_nat (String.length s);
     body := Text s |}.

(** Modelled from the spec: a response that reports the given error. *)
Definition NewError (statusCode : Z) (err : stow.error) : Response :=
  {| StatusCode := statusCode; Headers := ∅; ContentLength := -1; body := ErrorBody err |}.

(** Modelled from the spec: a response around a marshalled buffer. *)
Definition NewBuf (statusCode : Z) (doc : listBucketResult) : Response :=
  {| StatusCode := statusCode; Headers := ∅; ContentLength := -1; body := XMLBuf doc |}.

End response.

(** What the package calls outside itself and its collaborators: the mime
    table, the formatting of instants, the stow drivers and the verdict of
    the XML encoder. *)
Record Runtime := {
  TypeByExtension : string -> string;
  FormatRFC3339 : stow.Time -> string;
  FormatHTTP : stow.Time -> string;
  Dial : string -> stow.Config -> stow.result stow.Location;
  xml_Marshal_error : listBucketResult -> option stow.error
}.

(** ** storage.go *)

Import stow.

(** The double quote, byte 34. *)
Definition dquote : string := String "034"%char EmptyString.

(** [const notFound]: the JSON text with the key error and the value
    item not found. *)
Definition notFound : string :=
  "{" +:+ dquote +:+ "error" +:+ dquote +:+ ":" +:+ dquote +:+ "item not found" +:+ dquote +:+ "}".

(** [storageCache]: the container in use for each configuration hash. *)
Abbreviation Cache := (gmap string Container).

(** [getKey]: the native key of an object. *)
Definition getKey (obj : object.FileObject) : string :=
  let st := object.Storage obj in
  if String.eqb (config.Kind st) "b2" then
    GoStrings.TrimPrefix (GoPath.Join [config.PathPrefix st; object.Key obj]) "/"
  else
    GoPath.Join [config.PathPrefix st; object.Key obj].

(** [isDir]: the is_dir flag, else the directory content type, else a size
    of zero. *)
Definition isDir (item : Item) : run bool :=
  match Metadata item with
  | Err _ => Done false
  | Ok metaData =>
      match mget "is_dir" metaData with
      | Some dir => as_bool dir
      | None =>
          match mget "content-type" metaData with
          | Some ct => s ← as_string ct; Done (String.eqb s "application/directory")
          | None =>
              match Size item with
              | (_, Some _) => Done false
              | (size, None) => Done (size =? 0)
              end
          end
      end
  end.

(** The first loop of [parseMetadata]: cache-control and every x- key go
    through under the lower-cased key. *)
Fixpoint parseMetadata_pass (metadata : list (string * Value))
    (res : response.Response) : run response.Response :=
  match metadata with
  | [] => Done res
  | (k, v) :: rest =>
      let k := GoStrings.ToLower k in
      res ← (if String.eqb k "cache-control"
             then s ← as_string v; Done (response.Set_ res k s)
             else Done res);
      res ← (if GoStrings.HasPrefix k "x-"
             then s ← as_string v; Done (response.Set_ res k s)
             else Done res);
      parseMetadata_pass rest res
  end.

(** The loop of the s3 case: every stored key is turned into a header. *)
Fixpoint parseMetadata_s3 (metadata : list (string * Value))
    (res : response.Response) : run response.Response :=
  match metadata with
  | [] => Done res
  | (k, v) :: rest =>
      s ← as_string v;
      let res :=
        if String.eqb k "cache-control" || String.eqb k "content-type"
        then response.Set_ res k s
        else response.Set_ res (GoStrings.Join ["x-amz-meta"; k] "-") s in
      parseMetadata_s3 rest res
  end.

(** [parseMetadata]: the stored metadata as headers of [res]. *)
Definition parseMetadata (obj : object.FileObject)
    (metadata : list (string * Value)) (res : response.Response)
    : run response.Response :=
  res ← parseMetadata_pass metadata res;
  if String.eqb (config.Kind (object.Storage obj)) "s3"
  then parseMetadata_s3 metadata res
  else Done res.

(** [v[0]] on the values of one header. *)
Definition first_value (v : list string) : run string :=
  match v with
  | [] => Panic IndexOutOfRange
  | x :: _ => Done x
  end.

(** The loop of [prepareMetadata] over the entries of [metaHeaders];
    [metadata] is the map built so far. *)
Fixpoint prepareMetadata_loop (kind : string)
    (metaHeaders : list (string * list string))
    (metadata : gmap string Value) : run (gmap string Value) :=
  match metaHeaders with
  | [] => Done metadata
  | (k, v) :: rest =>
      metadata ←
        (if String.eqb kind "s3" then
           let keyLower := GoStrings.ToLower k in
           if GoStrings.HasPrefix keyLower "x-amz-meta"
              || String.eqb keyLower "content-type"
           then x ← first_value v;
                Done (<[GoStrings.Replace1 keyLower "x-amz-meta-" EmptyString := VString x]> metadata)
           else Done metadata
         else
           let keyLower := GoStrings.ToLower k in
           if GoStrings.HasPrefix keyLower "x-amz-meta"
              || String.eqb keyLower "content-type"
              || String.eqb keyLower "etag"
           then x ← first_value v; Done (<[keyLower := VString x]> metadata)
           else Done metadata);
      prepareMetadata_loop kind rest metadata
  end.

(** [prepareMetadata]: the request headers as metadata to store. *)
Definition prepareMetadata (obj : object.FileObject)
    (metaHeaders : list (string * list string)) : run (gmap string Value) :=
  prepareMetadata_loop (config.Kind (object.Storage obj)) metaHeaders ∅.

(** The operations run against a runtime and thread [storageCache] through:
    each returns what the call does, a response or a panic, next to the
    cache it leaves. *)
Section Operations.

Variable rt : Runtime.

(** [prepareResponse]: the 200 response for a fetched item. *)
Definition prepareResponse (obj : object.FileObject) (stream : option Stream)
    (item : Item) : run response.Response :=
  let res := response.New 200 stream in
  match Metadata item with
  | Err err => Done (response.NewError 500 err)
  | Ok metadata =>
      res ← parseMetadata obj metadata res;
      match ETag item with
      | (_, Some err) => Done (response.NewError 500 err)
      | (etag, None) =>
          match LastMod item with
          | (_, Some err) => Done (response.NewError 500 err)
          | (lastMod, None) =>
              let res :=
                match Size item with
                | (size, None) => response.SetContentLength res size
                | (_, Some _) => res
                end in
              let res :=
                if negb (String.eqb etag EmptyString)
                then response.Set_ res "ETag" etag else res in
              let res := response.Set_ res "Last-Modified" (FormatHTTP rt lastMod) in
              match mget "Content-Type" metadata with
              | Some contentType =>
                  s ← as_string contentType; Done (response.SetContentType res s)
              | None =>
                  match mget "content-type" metadata with
                  | Some contentType =>
                      s ← as_string contentType; Done (response.SetContentType res s)
                  | None =>
                      let ct := TypeByExtension rt (GoPath.Ext (object.UriPath obj)) in
                      if negb (String.eqb ct EmptyString)
                      then Done (response.SetContentType res ct)
                      else
                        d ← isDir item;
                        if d : bool then Done (response.SetContentType res "application/directory")
                        else Done res
                  end
              end
          end
      end
  end.

(** The [stow.ConfigMap] of [getClient] for each kind; no case of the
    switch leaves the nil config. *)
Definition clientConfig (storageCfg : config.Storage) : Config :=
  let kind := config.Kind storageCfg in
  if String.eqb kind "local" then
    ConfigLocal (config.RootPath storageCfg) "true"
  else if String.eqb kind "http" then
    ConfigHttp (config.Url storageCfg) (config.Headers storageCfg)
  else if String.eqb kind "s3" then
    ConfigS3 (config.AccessKey storageCfg) (config.SecretAccessKey storageCfg)
             (config.Region storageCfg) (config.Endpoint storageCfg)
  else if String.eqb kind "local-meta" then
    ConfigLocalMeta (config.RootPath storageCfg)
  else if String.eqb kind "b2" then
    ConfigB2 (config.Account storageCfg) (config.Key storageCfg)
  else ConfigNil.

(** [getClient]: the cached container of the configuration, or a freshly
    dialled one, which is then cached. *)
Definition getClient (obj : object.FileObject) (cache : Cache)
    : result Container * Cache :=
  let storageCfg := object.Storage obj in
  match cache !! config.Hash storageCfg with
  | Some c => (Ok c, cache)
  | None =>
      match Dial rt (config.Kind storageCfg) (clientConfig storageCfg) with
      | Err err => (Err err, cache)
      | Ok client =>
          let bucketName :=
            if negb (String.eqb (config.Bucket storageCfg) EmptyString)
            then config.Bucket storageCfg else object.Bucket obj in
          match GetContainer client bucketName with
          | Err err =>
              if is_ErrNotFound err
                 && GoStrings.HasPrefix (config.Kind storageCfg) "local"
              then
                match CreateContainer client (object.Bucket obj) with
                | Err err => (Err err, cache)
                | Ok container =>
                    (Ok container, <[config.Hash storageCfg := container]> cache)
                end
              else (Err err, cache)
          | Ok container =>
              (Ok container, <[config.Hash storageCfg := container]> cache)
          end
      end
  end.

(** [Get]. *)
Definition Get (obj : object.FileObject) (cache : Cache)
    : run response.Response * Cache :=
  let key := getKey obj in
  match getClient obj cache with
  | (Err err, cache) => (Done (response.NewError 503 err), cache)
  | (Ok client, cache) =>
      match GetItem client key with
      | Err err =>
          if is_ErrNotFound err
          then (Done (response.NewString 404 notFound), cache)
          else (Done (response.NewError 500 err), cache)
      | Ok item =>
          (d ← isDir item;
           if negb (d : bool) then
             match Open item with
             | Err err => Done (response.NewError 500 err)
             | Ok reader => prepareResponse obj (Some reader) item
             end
           else
             let res := response.NewNoContent 404 in
             Done (response.SetContentType res "application/xml"),
           cache)
      end
  end.

(** [Head]. *)
Definition Head (obj : object.FileObject) (cache : Cache)
    : run response.Response * Cache :=
  let key := getKey obj in
  match getClient obj cache with
  | (Err err, cache) => (Done (response.NewError 503 err), cache)
  | (Ok client, cache) =>
      match GetItem client key with
      | Err err =>
          if is_ErrNotFound err
          then (Done (response.NewString 404 notFound), cache)
          else (Done (response.NewError 500 err), cache)
      | Ok item => (prepareResponse obj None item, cache)
      end
  end.

(** [Delete]. *)
Definition Delete (obj : object.FileObject) (cache : Cache)
    : run response.Response * Cache :=
  match getClient obj cache with
  | (Err err, cache) => (Done (response.NewError 503 err), cache)
  | (Ok client, cache) =>
      match Head obj cache with
      | (Panic p, cache) => (Panic p, cache)
      | (Done resHead, cache) =>
          if response.StatusCode resHead =? 200 then
            match RemoveItem client (getKey obj) with
            | Some err => (Done (response.NewError 500 err), cache)
            | None => (Done resHead, cache)
            end
          else if response.StatusCode resHead =? 404 then
            (Done (response.NewNoContent 200), cache)
          else (Done resHead, cache)
      end
  end.

(** One turn of the loop of [List]: [result] and [commonPrefixes] before the
    item, and after it. *)
Definition List_item (prefix : string)
    (st : listBucketResult * gmap string bool) (item : Item)
    : run (listBucketResult * gmap string bool) :=
  let '(result, commonPrefixes) := st in
  let lastMod := fst (LastMod item) in
  let size := fst (Size item) in
  let etag := fst (ETag item) in
  let itemID := ID item in
  let filePath := GoStrings.Split itemID "/" in
  let prefixPath := GoStrings.Split prefix "/" in
  '(key, commonPrefix, commonPrefixes) ←
    (if (length prefixPath <? length filePath)%nat then
       let key := GoStrings.Join (take (length prefixPath) filePath) "/" in
       match commonPrefixes !! key with
       | None => Done (key, key, <[key := true]> commonPrefixes)
       | Some _ => Done (key, EmptyString, commonPrefixes)
       end
     else
       let key := Name item in
       d ← isDir item;
       match commonPrefixes !! key with
       | None =>
           if d : bool then Done (key, key, <[key := true]> commonPrefixes)
           else Done (key, EmptyString, commonPrefixes)
       | Some _ => Done (key, EmptyString, commonPrefixes)
       end);
  c ← match GoStrings.last_byte itemID with
      | Some c => Done c
      | None => Panic IndexOutOfRange
      end;
  let '(key, size) :=
    if Ascii.eqb c "/" then (key +:+ "/", 0) else (key, size) in
  let result :=
    if negb (String.eqb key EmptyString) then
      {| lName := lName result; Prefix := Prefix result; Marker := Marker result;
         MaxKeys := MaxKeys result; IsTruncated := IsTruncated result;
         Contents := Contents result ++
           [{| cKey := key; StorageClass := "STANDARD";
               LastModified := FormatRFC3339 rt lastMod;
               cETag := etag; cSize := size |}];
         CommonPrefixes := CommonPrefixes result |}
    else result in
  let result :=
    if negb (String.eqb commonPrefix EmptyString) then
      {| lName := lName result; Prefix := Prefix result; Marker := Marker result;
         MaxKeys := MaxKeys result; IsTruncated := IsTruncated result;
         Contents := Contents result;
         CommonPrefixes := CommonPrefixes result ++
           [{| cpPrefix := commonPrefix +:+ "/" |}] |}
    else result in
  Done (result, commonPrefixes).

(** The loop [for _, item := range items]. *)
Fixpoint List_loop (prefix : string) (items : list Item)
    (st : listBucketResult * gmap string bool)
    : run (listBucketResult * gmap string bool) :=
  match items with
  | [] => Done st
  | item :: rest => st ← List_item prefix st item; List_loop prefix rest st
  end.

(** [List]; its third argument is not used. *)
Definition List (obj : object.FileObject) (maxKeys : Z) (_ : string)
    (prefix marker : string) (cache : Cache)
    : run response.Response * Cache :=
  match getClient obj cache with
  | (Err err, cache) => (Done (response.NewError 503 err), cache)
  | (Ok client, cache) =>
      let prefix := GoPath.Join [config.PathPrefix (object.Storage obj); prefix] in
      let missing :=
        if negb (String.eqb prefix EmptyString) && negb (String.eqb prefix "/")
           && String.eqb (config.Kind (object.Storage obj)) "local-meta"
        then match GetItem client prefix with
             | Err err => is_ErrNotFound err
             | Ok _ => false
             end
        else false in
      if missing then (Done (response.NewString 404 (object.Key obj)), cache)
      else
        match Items client prefix marker maxKeys with
        | Err err => (Done (response.NewError 500 err), cache)
        | Ok (items, resultMarker) =>
            let result :=
              {| lName := object.Bucket obj; Prefix := prefix;
                 Marker := resultMarker; MaxKeys := maxKeys;
                 IsTruncated := false; Contents := []; CommonPrefixes := [] |} in
            ('(result, _) ← List_loop prefix items (result, ∅);
             match xml_Marshal_error rt result with
             | Some err => Done (response.NewError 500 err)
             | None =>
                 let res := response.NewBuf 200 result in
                 Done (response.SetContentType res "application/xml")
             end,
             cache)
        end
  end.

End Operations.

(** ** Predicates and samples the statements below use *)

Import GoStrings GoPath.

(** The shape of the write buffer of [path.Clean] (last byte first): above
    an optional root separator, a body with no two separators in a row that
    neither starts nor ends with one. *)
Definition root (rooted : bool) : list ascii := if rooted then [slash] else [].

Fixpoint no_dslash (o : list ascii) : Prop :=
  match o with
  | [] => True
  | c :: t => (is_slash c && is_slash (hd dot t) = false) ∧ no_dslash t
  end.

Definition tidy (o : list ascii) : Prop :=
  no_dslash o ∧ is_slash (hd dot o) = false ∧ is_slash (List.last o dot) = false.

(** What every turn of the loop of [path.Clean] keeps: the buffer is a tidy
    body over the root, and [dotdot] marks a lower part [base] of it that
    backtracking stops at. *)
Definition clean_inv (rooted : bool) (o : list ascii) (dotdot : nat) : Prop :=
  ∃ top base,
    o = top ++ base ++ root rooted
    ∧ dotdot = length (base ++ root rooted)
    ∧ tidy (top ++ base)
    ∧ is_slash (hd dot base) = false.

(** Every cleaned path is an optional root separator followed by a body that
    neither starts nor ends with a separator. *)
Definition cleaned (s : string) : Prop :=
  ∃ rooted body,
    s = of_bytes (root rooted ++ body)
    ∧ is_slash (hd dot body) = false
    ∧ is_slash (List.last body dot) = false.

(** Sample configurations, objects and backends. *)
Definition sample_storage (kind pathPrefix : string) : config.Storage :=
  {| config.Kind := kind; config.RootPath := "/data"; config.Bucket := EmptyString;
     config.PathPrefix := pathPrefix; config.Url := EmptyString;
     config.Headers := []; config.AccessKey := EmptyString;
     config.SecretAccessKey := EmptyString; config.Region := EmptyString;
     config.Endpoint := EmptyString; config.Account := EmptyString;
     config.Key := EmptyString; config.Hash := "hash-1" |}.

Definition sample_object (kind pathPrefix key : string) : object.FileObject :=
  {| object.Bucket := "bucket"; object.Key := key; object.UriPath := key;
     object.Storage := sample_storage kind pathPrefix |}.

Definition sample_item (id name : string) (size : Z)
    (metadata : list (string * Value)) : Item :=
  {| ID := id; Name := name; Size := (size, None); ETag := ("etag-1", None);
     LastMod := (0, None); Metadata := Ok metadata; Open := Ok "content" |}.

(** A container with the given items: [Item] finds an item by its id,
    [Items] hands all of them out with the marker [next]. *)
Definition sample_container (items : list Item) (removal : option error) : Container :=
  {| GetItem := fun key =>
       match find (fun it => String.eqb (ID it) key) items with
       | Some it => Ok it
       | None => Err ErrNotFound
       end;
     Items := fun _ _ _ => Ok (items, "next");
     RemoveItem := fun _ => removal |}.

Definition sample_runtime (c : result Container) : Runtime :=
  {| TypeByExtension := fun ext => if String.eqb ext ".png" then "image/png" else EmptyString;
     FormatRFC3339 := fun _ => "1970-01-01T00:00:00Z";
     FormatHTTP := fun _ => "Thu, 01 Jan 1970 00:00:00 GMT";
     Dial := fun _ _ =>
       match c with
       | Ok c => Ok {| GetContainer := fun _ => Ok c; CreateContainer := fun _ => Ok c |}
       | Err e => Err e
       end;
     xml_Marshal_error := fun _ => None |}.

(** The headers inbound translation keeps, by kind. *)
Definition kept (kind k : string) : bool :=
  let keyLower := GoStrings.ToLower k in
  GoStrings.HasPrefix keyLower "x-amz-meta"
  || String.eqb keyLower "content-type"
  || (negb (String.eqb kind "s3") && String.eqb keyLower "etag").

(** The key a kept header is stored under, by kind. *)
Definition stored_key (kind k : string) : string :=
  if String.eqb kind "s3"
  then GoStrings.Replace1 (GoStrings.ToLower k) "x-amz-meta-" EmptyString
  else GoStrings.ToLower k.

(** Every kept header carries at least one value. *)
Definition has_values (kind : string) (metaHeaders : list (string * list string)) : bool :=
  forallb (fun '(k, v) => implb (kept kind k) (match v with [] => false | _ :: _ => true end))
    metaHeaders.


(** Request headers: a custom one with two values, a content type, an etag
    and one that no kind keeps. *)
Definition sample_headers : list (string * list string) :=
  [("X-Amz-Meta-Color", ["red"; "blue"]); ("Content-Type", ["text/plain"]);
   ("ETag", ["abc"]); ("Accept", [])].


(** Mapping over what a run returns. *)
#[global] Instance run_fmap : FMap run := fun A B f m =>
  match m with
  | Done a => Done (f a)
  | Panic p => Panic p
  end.

(** The response [r] around another body. *)
Definition with_body (b : response.Body) (r : response.Response) : response.Response :=
  {| response.StatusCode := response.StatusCode r;
     response.Headers := response.Headers r;
     response.ContentLength := response.ContentLength r;
     response.body := b |}.

(** What [Get] adds to the answer of [Head] for an item that is served: the
    opened stream, on a 200. *)
Definition attach (reader : Stream) (r : response.Response) : response.Response :=
  if response.StatusCode r =? 200 then with_body (response.Reader reader) r else r.

(** The reading of the spec in which [Head] answers a directory as [Get]
    does. *)
Definition Head_answers_as_Get (rt : Runtime) (obj : object.FileObject)
    (cache : Cache) : Prop :=
  (Head rt obj cache).1 = (Get rt obj cache).1.

(** What the loop of [List] keeps true of the common prefixes emitted so
    far: no repeats, and each is a key of the seen-set followed by a
    separator. *)
Definition prefixes_seen (st : listBucketResult * gmap string bool) : Prop :=
  NoDup (CommonPrefixes st.1)
  ∧ ∀ cp, cp ∈ CommonPrefixes st.1 →
      ∃ p, cpPrefix cp = p +:+ "/" ∧ is_Some (st.2 !! p).

(** The header fields of the document, which the loop never touches. *)
Definition same_header (r r' : listBucketResult) : Prop :=
  lName r' = lName r ∧ Prefix r' = Prefix r ∧ Marker r' = Marker r
  ∧ MaxKeys r' = MaxKeys r ∧ IsTruncated r' = IsTruncated r.

(** The flat keys a/b, a/c and a/d/e as items a backend yields, each named
    by its id. *)
Definition flat_items : list Item :=
  [sample_item "a/b" "a/b" 3 []; sample_item "a/c" "a/c" 3 [];
   sample_item "a/d/e" "a/d/e" 3 []].

(** The content entry [List] makes of a sample item under the key [key]. *)
Definition flat_entry (key : string) : contentXML :=
  {| cKey := key; StorageClass := "STANDARD"; LastModified := "1970-01-01T00:00:00Z";
     cETag := "etag-1"; cSize := 3 |}.

(** What [List] answers for [flat_items] under the logical prefix a/ and an
    empty path prefix. *)
Definition flat_listing : listBucketResult :=
  {| lName := "bucket"; Prefix := "a"; Marker := "next"; MaxKeys := 1000;
     IsTruncated := false;
     Contents := [flat_entry "a"; flat_entry "a"; flat_entry "a"];
     CommonPrefixes := [{| cpPrefix := "a/" |}] |}.

(** Items one of which has the empty id. *)
Definition nameless_items : list Item :=
  [sample_item "a/b" "b" 3 []; sample_item EmptyString EmptyString 0 []].

(** The listing the spec words for the flat keys a/b, a/c and a/d/e. *)
Definition lists_as_specified (result : listBucketResult) : Prop :=
  "a/b" ∈ map cKey (Contents result)
  ∧ "a/c" ∈ map cKey (Contents result)
  ∧ CommonPrefixes result = [{| cpPrefix := "a/d/" |}].

(** ** Writes *)

(** [http.Header.Get] for a key in canonical form, as Content-Type is: the
    first value stored under the key, or the empty string. *)
Definition Header_Get (h : list (string * list string)) (key : string) : string :=
  match mget key h with
  | Some (x :: _) => x
  | _ => EmptyString
  end.

(** [Set] runs against a runtime and the method [Put] of the containers,
    given by what it answers for a container, a key, a body, a length and
    the metadata to store. *)
Section Writes.

Variable rt : Runtime.
Variable Put : Container -> string -> Stream -> Z -> gmap string Value -> result Item.

(** [Set], under a name that is free here. *)
Definition SetObject (obj : object.FileObject)
    (metaHeaders : list (string * list string)) (contentLen : Z) (body : Stream)
    (cache : Cache) : run response.Response * Cache :=
  match getClient rt obj cache with
  | (Err err, cache) => (Done (response.NewError 503 err), cache)
  | (Ok client, cache) =>
      let key := getKey obj in
      if String.eqb (config.Kind (object.Storage obj)) "s3"
         && (contentLen =? 0) && GoStrings.HasSuffix key "/"
      then (Done (response.NewNoContent 200), cache)
      else
        (metadata ← prepareMetadata obj metaHeaders;
         match Put client (getKey obj) body contentLen metadata with
         | Err err => Done (response.NewError 500 err)
         | Ok _ =>
             let res := response.NewNoContent 200 in
             Done (response.SetContentType res (Header_Get metaHeaders "Content-Type"))
         end,
         cache)
  end.

End Writes.

(** The header a stored key comes back under for the s3 kind. *)
Definition s3_header (k : string) : string :=
  if String.eqb k "cache-control" || String.eqb k "content-type" then k
  else "x-amz-meta-" +:+ k.

(** A string without upper-case ASCII letters. *)
Definition lower_case (s : string) : Prop := GoStrings.ToLower s = s.

(** The statuses an operation answers with. *)
Definition status_in (codes : list Z) (r : run response.Response) : Prop :=
  match r with
  | Done res => response.StatusCode res ∈ codes
  | Panic _ => True
  end.

(** A header name outbound translation may write: cache-control,
    content-type, or one that starts with x-. *)
Definition translated (name : string) : bool :=
  String.eqb name "cache-control" || String.eqb name "content-type"
  || HasPrefix name "x-".

(** Every value of the metadata is a string. *)
Definition all_strings (metadata : list (string * Value)) : bool :=
  forallb (fun kv => match kv.2 with VString _ => true | _ => false end) metadata.

(** What every listing document of [List] satisfies: no common prefix is
    named twice, no content entry has the empty key, and every common prefix
    is a non-empty stem followed by a separator, the stem being listed among
    the contents as well, with or without the separator. *)
Definition well_formed (result : listBucketResult) : Prop :=
  NoDup (CommonPrefixes result)
  ∧ (∀ c, c ∈ Contents result →
       cKey c ≠ EmptyString ∧ StorageClass c = "STANDARD")
  ∧ (∀ cp, cp ∈ CommonPrefixes result →
       ∃ p, p ≠ EmptyString ∧ cpPrefix cp = p +:+ "/"
            ∧ ∃ c, c ∈ Contents result ∧ (cKey c = p ∨ cKey c = p +:+ "/"))
  ∧ (length (CommonPrefixes result) ≤ length (Contents result))%nat.

(** ** The library functions on examples *)

Example Clean_examples :
  map GoPath.Clean ["a/"; "/a//b/./c/.."; "../../x"; "/.."; "a/../.."; ""; "/"; "a/b/../../.."; "abc//def//ghi"; "/abc/def/../../.."]
  = ["a"; "/a/b"; "../../x"; "/"; ".."; "."; "/"; ".."; "abc/def/ghi"; "/"].
Proof. reflexivity. Qed.

Example Join_examples :
  map GoPath.Join [["";"a/"]; ["/a";"/b"]; ["";""]; ["a";""]; ["";"/"]]
  = ["a"; "/a/b"; ""; "a"; "/"].
Proof. reflexivity. Qed.

Example Split_examples :
  map (fun s => GoStrings.Split s "/") [""; "a"; "a/"; "a/d/e"; "/a"]
  = [[""]; ["a"]; ["a"; ""]; ["a"; "d"; "e"]; [""; "a"]].
Proof. reflexivity. Qed.

Example Ext_examples :
  map GoPath.Ext ["a/b.png"; "a.b/c"; "x.tar.gz"; ""; "a."]
  = [".png"; ""; ".gz"; ""; "."].
Proof. reflexivity. Qed.

(** ** Properties *)

(** *** [path.Clean] and [path.Join] *)

Lemma no_dslash_app_r a b : no_dslash (a ++ b) → no_dslash b.
Proof. induction a as [|c a IH]; simpl; [done|]. intros [_ H]. auto. Qed.

Lemma no_dslash_after_slash a c b :
  is_slash c = true → no_dslash (a ++ c :: b) → is_slash (hd dot b) = false.
Proof.
  intros Hc H. apply no_dslash_app_r in H. simpl in H. destruct H as [H _].
  rewrite Hc in H. exact H.
Qed.

Lemma no_dslash_free a b :
  Forall (λ c, is_slash c = false) a → no_dslash b → no_dslash (a ++ b).
Proof.
  induction 1 as [|c a Hc _ IH]; simpl; [done|].
  intros Hb. split; [by rewrite Hc | auto].
Qed.

Lemma last_app_r (a b : list ascii) d : b ≠ [] → List.last (a ++ b) d = List.last b d.
Proof.
  intros Hb. induction a as [|c a IH]; [done|].
  simpl. destruct (a ++ b) eqn:E; [|exact IH].
  destruct a, b; simpl in E; congruence.
Qed.

Lemma last_Forall (P : ascii → Prop) l d :
  Forall P l → l ≠ [] → P (List.last l d).
Proof.
  induction 1 as [|x l Hx Hl IH]; [done|]. intros _.
  destruct l as [|y l]; [done|]. apply IH. done.
Qed.

Lemma tidy_suffix pre c l :
  is_slash c = true → tidy (pre ++ c :: l) → tidy l.
Proof.
  intros Hc (Hn & _ & Hl). split; [|split].
  - apply no_dslash_app_r in Hn. simpl in Hn. tauto.
  - eapply no_dslash_after_slash; eauto.
  - destruct l as [|x l]; [done|].
    replace (pre ++ c :: x :: l) with ((pre ++ [c]) ++ x :: l) in Hl
      by (by rewrite <- app_assoc).
    by rewrite last_app_r in Hl.
Qed.

Lemma tidy_base top base :
  tidy (top ++ base) → is_slash (hd dot base) = false → tidy base.
Proof.
  intros (Hn & _ & Hl) Hb. split; [|split]; [by eapply no_dslash_app_r|done|].
  destruct base as [|x l]; [done|]. by rewrite last_app_r in Hl.
Qed.

Lemma element_spec p e q :
  element p = (e, q) →
  p = e ++ q ∧ Forall (λ c, is_slash c = false) e ∧ at_boundary q = true.
Proof.
  revert e q. induction p as [|c p IH]; simpl; intros e q H.
  - by inversion H.
  - destruct (is_slash c) eqn:Hc.
    + inversion H; subst. simpl. by rewrite Hc.
    + destruct (element p) as [e' q'] eqn:E. inversion H; subst.
      destruct (IH _ _ eq_refl) as (-> & Hf & Hq). auto.
Qed.

Lemma element_length p e q : element p = (e, q) → (length q ≤ length p)%nat.
Proof.
  intros H. apply element_spec in H as (-> & _). rewrite length_app. lia.
Qed.

Lemma backtrack_spec dotdot top rest :
  length rest = dotdot → top ≠ [] →
  ∃ top', backtrack dotdot (top ++ rest) = top' ++ rest
          ∧ (top' = [] ∨ ∃ pre c, is_slash c = true ∧ top = pre ++ c :: top').
Proof.
  intros Hlen. induction top as [|c t IH]; [done|]. intros _.
  simpl. destruct t as [|c' t].
  - simpl. replace (dotdot <? length rest)%nat with false
      by (symmetry; apply Nat.ltb_ge; lia).
    exists []. auto.
  - replace (dotdot <? length ((c' :: t) ++ rest))%nat with true
      by (symmetry; apply Nat.ltb_lt; rewrite length_app; simpl; lia).
    simpl andb. destruct (is_slash c) eqn:Hc; simpl negb; cbv iota.
    + exists (c' :: t). split; [done|]. right. by exists [], c.
    + destruct IH as (top' & Hb & Hs); [done|].
      exists top'. split; [exact Hb|].
      destruct Hs as [->|(pre & x & Hx & Ht)]; [by left|].
      right. exists (c :: pre), x. split; [done|]. simpl. by rewrite Ht.
Qed.

Lemma clean_inv_push rooted o dotdot e :
  clean_inv rooted o dotdot → e ≠ [] → Forall (λ c, is_slash c = false) e →
  clean_inv rooted
    (rev e ++ (if (rooted && negb (length o =? 1)%nat)
                  || (negb rooted && negb (length o =? 0)%nat)
               then slash :: o else o)) dotdot.
Proof.
  intros (top & base & -> & -> & Ht & Hb) He Hf.
  assert (Hre : Forall (λ c, is_slash c = false) (rev e)).
  { by apply List.Forall_rev. }
  assert (Hrne : rev e ≠ []).
  { intros E. apply (f_equal (@length _)) in E. rewrite length_rev in E.
    destruct e; simpl in E; [done|lia]. }
  assert (Hhd : is_slash (hd dot (rev e)) = false).
  { destruct (rev e); [done|]. by inversion Hre. }
  assert (Hcond : (rooted && negb (length (top ++ base ++ root rooted) =? 1)%nat)
                  || (negb rooted && negb (length (top ++ base ++ root rooted) =? 0)%nat)
                  = negb (length (top ++ base) =? 0)%nat).
  { rewrite app_assoc, length_app.
    generalize (length (top ++ base)). intros [|[|n]]; destruct rooted; reflexivity. }
  rewrite Hcond.
  destruct (top ++ base) as [|x body] eqn:Ebody.
  - apply app_eq_nil in Ebody as [-> ->]. simpl.
    exists (rev e), []. simpl. rewrite app_nil_r. repeat split; auto.
    + apply no_dslash_free with (b := []) in Hre; [|done]. by rewrite app_nil_r in Hre.
    + by apply last_Forall.
  - simpl negb. cbv iota.
    exists (rev e ++ slash :: top), base.
    split; [by rewrite <- !app_assoc|]. split; [done|]. split; [|done].
    rewrite <- app_assoc. simpl. rewrite Ebody.
    destruct Ht as (Hn & Hh & Hl). split; [|split].
    + apply no_dslash_free; [done|]. simpl. split; [|done]. simpl in Hh. first [exact Hh | by rewrite Hh, andb_false_r].
    + destruct (rev e); [done|]. done.
    + by rewrite last_app_r.
Qed.

Lemma clean_inv_backtrack rooted o dotdot :
  clean_inv rooted o dotdot → (dotdot < length o)%nat →
  clean_inv rooted (backtrack dotdot o) dotdot.
Proof.
  intros (top & base & -> & -> & Ht & Hb) Hlt.
  assert (Htop : top ≠ []).
  { intros ->. simpl in Hlt. lia. }
  destruct (backtrack_spec (length (base ++ root rooted)) top (base ++ root rooted))
    as (top' & Hbt & Hs); [done|done|].
  rewrite Hbt. exists top', base. split; [done|]. split; [done|]. split; [|done].
  destruct Hs as [->|(pre & c & Hc & ->)].
  - simpl. by eapply tidy_base.
  - rewrite <- app_assoc in Ht. simpl in Ht. by eapply tidy_suffix.
Qed.

Lemma clean_inv_dotdot o dotdot :
  clean_inv false o dotdot → ¬ (dotdot < length o)%nat →
  clean_inv false
    (dot :: dot :: (if (0 <? length o)%nat then slash :: o else o))
    (length (dot :: dot :: (if (0 <? length o)%nat then slash :: o else o))).
Proof.
  intros (top & base & -> & -> & Ht & Hb) Hge. simpl root in *.
  rewrite !app_nil_r in *.
  assert (top = []) as ->.
  { destruct top; [done|]. rewrite length_app in Hge. simpl in Hge. lia. }
  simpl app in *.
  set (out2 := dot :: dot :: _).
  exists [], out2. simpl. rewrite app_nil_r.
  split; [done|]. split; [done|]. split; [|done].
  destruct Ht as (Hn & Hh & Hl). subst out2.
  destruct base as [|x base].
  - repeat split.
  - split; [|split]; [|done|exact Hl].
    simpl in Hh, Hn. simpl. rewrite Hh. tauto.
Qed.

Lemma clean_loop_inv fuel : ∀ rooted p o dotdot,
  clean_inv rooted o dotdot →
  ∃ dotdot', clean_inv rooted (clean_loop fuel rooted p o dotdot) dotdot'.
Proof.
  induction fuel as [|fuel IH]; intros rooted p o dotdot Hinv; simpl.
  { by exists dotdot. }
  destruct p as [|c p1]; [by exists dotdot|].
  destruct (is_slash c) eqn:Hc; [by apply IH|].
  destruct (Ascii.eqb c dot && at_boundary p1); [by apply IH|].
  destruct (Ascii.eqb c dot && Ascii.eqb (hd slash p1) dot && at_boundary (tl p1)).
  - destruct (dotdot <? length o)%nat eqn:Hlt.
    + apply IH. apply clean_inv_backtrack; [done|]. by apply Nat.ltb_lt.
    + destruct rooted; simpl negb; cbv iota; [by apply IH|].
      apply IH. eapply clean_inv_dotdot; [exact Hinv|]. apply Nat.ltb_ge in Hlt. lia.
  - destruct (element (c :: p1)) as [e q] eqn:E. apply IH.
    assert (He : e ≠ []).
    { simpl in E. rewrite Hc in E. destruct (element p1). by inversion E. }
    apply element_spec in E as (_ & Hf & _). by apply clean_inv_push.
Qed.

Lemma hd_rev (l : list ascii) d : hd d (rev l) = List.last l d.
Proof.
  induction l as [|x l IH] using rev_ind; [done|].
  rewrite rev_app_distr, last_last. done.
Qed.

Lemma last_rev (l : list ascii) d : List.last (rev l) d = hd d l.
Proof. rewrite <- (rev_involutive l) at 2. by rewrite hd_rev. Qed.

Lemma clean_inv_cleaned rooted o dotdot :
  clean_inv rooted o dotdot → cleaned (of_bytes (rev o)).
Proof.
  intros (top & base & -> & _ & (Hn & Hh & Hl) & _).
  exists rooted, (rev (top ++ base)). split; [|split].
  - rewrite app_assoc, rev_app_distr. f_equal. by destruct rooted.
  - by rewrite hd_rev.
  - by rewrite last_rev.
Qed.

Lemma cleaned_dot : cleaned ".".
Proof. exists false, [dot]. done. Qed.

Lemma cleaned_empty : cleaned "".
Proof. exists false, []. done. Qed.

Lemma Clean_cleaned path : cleaned (Clean path).
Proof.
  unfold Clean. destruct (bytes path) as [|c p1]; [apply cleaned_dot|].
  set (out := if is_slash c then _ else _).
  assert (Hout : ∃ dotdot, clean_inv (is_slash c) out dotdot).
  { subst out. destruct (is_slash c) eqn:Hc.
    - apply clean_loop_inv. exists [], []. repeat split.
    - apply clean_loop_inv. exists [], []. repeat split. }
  destruct Hout as (dotdot & Hinv).
  clearbody out. destruct out as [|x o]; [apply cleaned_dot|].
  by eapply clean_inv_cleaned.
Qed.

Lemma Join_cleaned elem : cleaned (GoPath.Join elem).
Proof.
  induction elem as [|e elem IH]; simpl; [apply cleaned_empty|].
  destruct (String.eqb e ""); [done|apply Clean_cleaned].
Qed.


Lemma HasSuffix_slash l :
  HasSuffix (of_bytes l) "/" = true → l ≠ [] ∧ List.last l dot = slash.
Proof.
  unfold HasSuffix. induction l as [|c l IH]; [done|].
  intros H. split; [done|]. simpl in H.
  rewrite Nat.sub_0_r in H.
  destruct l as [|c' l].
  - simpl in H. destruct (Ascii.eqb_spec c "/") as [->|]; [done|].
    simpl in H. done.
  - simpl in H. simpl in IH. rewrite Nat.sub_0_r in IH.
    destruct IH as [_ IH]; [exact H|]. exact IH.
Qed.

Lemma cleaned_suffix s : cleaned s → HasSuffix s "/" = false ∨ s = "/".
Proof.
  intros (rooted & body & -> & Hh & Hl).
  destruct (HasSuffix (of_bytes (root rooted ++ body)) "/") eqn:E; [|by left].
  right. apply HasSuffix_slash in E as [Hne E].
  destruct body as [|x body].
  - destruct rooted; [done|]. done.
  - rewrite last_app_r in E by done. rewrite E in Hl. done.
Qed.


(** The fuel of [clean_loop] never runs out: any two amounts that cover the
    unread part give the same buffer. *)
Lemma clean_loop_fuel n : ∀ m rooted p o dotdot,
  (length p ≤ n)%nat → (length p ≤ m)%nat →
  clean_loop n rooted p o dotdot = clean_loop m rooted p o dotdot.
Proof.
  induction n as [|n IH]; intros m rooted p o dotdot Hn Hm.
  { destruct p; [|simpl in Hn; lia]. by destruct m. }
  destruct m as [|m].
  { destruct p; [done|simpl in Hm; lia]. }
  simpl. destruct p as [|c p1]; [done|]. simpl in Hn, Hm.
  destruct (is_slash c) eqn:Hc; [apply IH; lia|].
  destruct (Ascii.eqb c dot && at_boundary p1); [apply IH; lia|].
  assert (Htl : (length (tl p1) ≤ length p1)%nat) by (destruct p1; simpl; lia).
  destruct (Ascii.eqb c dot && Ascii.eqb (hd slash p1) dot && at_boundary (tl p1)).
  - destruct (dotdot <? length o)%nat; [apply IH; lia|].
    destruct (negb rooted); apply IH; lia.
  - destruct (element (c :: p1)) as [e q] eqn:E.
    assert (length q ≤ length p1)%nat.
    { simpl in E. rewrite Hc in E. destruct (element p1) as [e' q'] eqn:E'.
      inversion E; subst. by eapply element_length. }
    apply IH; lia.
Qed.

(** *** Key resolution *)



Example getKey_b2_s3 :
  getKey (sample_object "b2" "/a" "/b") = "a/b"
  ∧ getKey (sample_object "s3" "/a" "/b") = "/a/b"
  ∧ getKey (sample_object "s3" "" "/") = "/".
Proof. repeat split. Qed.

(** *** Inbound metadata translation *)

Lemma prepareMetadata_step kind k v rest metadata :
  prepareMetadata_loop kind ((k, v) :: rest) metadata =
  (if kept kind k
   then x ← first_value v;
        prepareMetadata_loop kind rest (<[stored_key kind k := VString x]> metadata)
   else prepareMetadata_loop kind rest metadata).
Proof.
  simpl. unfold kept, stored_key.
  destruct (String.eqb kind "s3"); simpl.
  - rewrite orb_false_r.
    destruct (_ || _); [|done]. by destruct v.
  - destruct (_ || _ || _); [|done]. by destruct v.
Qed.

Lemma prepareMetadata_step_kept kind k x vs rest metadata :
  kept kind k = true →
  prepareMetadata_loop kind ((k, x :: vs) :: rest) metadata
  = prepareMetadata_loop kind rest (<[stored_key kind k := VString x]> metadata).
Proof. intros H. by rewrite prepareMetadata_step, H. Qed.

Lemma prepareMetadata_loop_spec kind metaHeaders : ∀ metadata,
  has_values kind metaHeaders = true →
  ∃ m, prepareMetadata_loop kind metaHeaders metadata = Done m
    ∧ (∀ key val, m !! key = Some val →
         metadata !! key = Some val
         ∨ ∃ k x vs, (k, x :: vs) ∈ metaHeaders ∧ kept kind k = true
                     ∧ key = stored_key kind k ∧ val = VString x)
    ∧ (∀ key, is_Some (metadata !! key) → is_Some (m !! key))
    ∧ (∀ k v, (k, v) ∈ metaHeaders → kept kind k = true →
         is_Some (m !! stored_key kind k)).
Proof.
  induction metaHeaders as [|[k v] rest IH]; intros metadata Hv.
  { exists metadata. split; [done|]. split; [by left|]. split; [done|].
    intros k v H. by apply not_elem_of_nil in H. }
  rewrite prepareMetadata_step. simpl in Hv. apply andb_true_iff in Hv as [Hk Hv].
  destruct (kept kind k) eqn:Ek.
  - destruct v as [|x vs]; [done|]. simpl.
    destruct (IH (<[stored_key kind k := VString x]> metadata) Hv)
      as (m & Hm & Honly & Hkeep & Hall).
    exists m. split; [exact Hm|]. split; [|split].
    + intros key val Hl. destruct (Honly key val Hl) as [Hin|(k' & x' & vs' & Hin & ?)].
      * destruct (decide (stored_key kind k = key)) as [<-|Hne].
        -- rewrite lookup_insert_eq in Hin. inversion Hin; subst.
           right. exists k, x, vs. split; [left|]. done.
        -- rewrite lookup_insert_ne in Hin by done. by left.
      * right. exists k', x', vs'. split; [by right|done].
    + intros key Hs. apply Hkeep.
      destruct (decide (stored_key kind k = key)) as [<-|Hne].
      * rewrite lookup_insert_eq. eauto.
      * by rewrite lookup_insert_ne.
    + intros k' v' Hin Hk'. apply elem_of_cons in Hin as [E|Hin].
      * inversion E; subst. apply Hkeep. rewrite lookup_insert_eq. eauto.
      * by eapply Hall.
  - destruct (IH metadata Hv) as (m & Hm & Honly & Hkeep & Hall).
    exists m. split; [exact Hm|]. split; [|split]; [|done|].
    + intros key val Hl. destruct (Honly key val Hl) as [Hin|(k' & x' & vs' & Hin & ?)].
      * by left.
      * right. exists k', x', vs'. split; [by right|done].
    + intros k' v' Hin Hk'. apply elem_of_cons in Hin as [E|Hin].
      * inversion E; subst. congruence.
      * by eapply Hall.
Qed.

Lemma Replace1_prefix old s :
  GoStrings.Replace1 (old +:+ s) old EmptyString = s.
Proof.
  assert (Hp : ∀ a b, GoStrings.HasPrefix (a +:+ b) a = true).
  { induction a as [|c a IH]; intros b; simpl; [done|].
    by rewrite Ascii.eqb_refl, IH. }
  assert (Hf : ∀ a b, GoStrings.from (String.length a) (a +:+ b) = b).
  { induction a as [|c a IH]; intros b; simpl; [done|]. apply IH. }
  assert (Hr : ∀ t, GoStrings.HasPrefix t old = true →
            GoStrings.Replace1 t old EmptyString = GoStrings.from (String.length old) t).
  { intros t Ht. destruct t; simpl; by rewrite Ht. }
  rewrite Hr by apply Hp. apply Hf.
Qed.

(** C5, amended. When every kept header has a value, inbound translation
    returns a map in which every entry comes from a kept header (one whose
    lower-cased name starts with x-amz-meta, or is content-type, or, outside
    s3, is etag) and holds the first value of that header, and every kept
    header has an entry under its stored key. For s3 the stored key is the
    lower-cased name with its first x-amz-meta- removed (x-amz-meta-foo is
    stored as foo); for every other kind it is the lower-cased name,
    prefix included. *)
Theorem prepareMetadata_translation (obj : object.FileObject)
    (metaHeaders : list (string * list string)) :
  let kind := config.Kind (object.Storage obj) in
  has_values kind metaHeaders = true →
  ∃ m, prepareMetadata obj metaHeaders = Done m
    ∧ (∀ key val, m !! key = Some val →
         ∃ k x vs, (k, x :: vs) ∈ metaHeaders ∧ kept kind k = true
                   ∧ key = stored_key kind k ∧ val = VString x)
    ∧ (∀ k v, (k, v) ∈ metaHeaders → kept kind k = true →
         is_Some (m !! stored_key kind k))
    ∧ (∀ k name, GoStrings.ToLower k = "x-amz-meta-" +:+ name →
         stored_key "s3" k = name)
    ∧ (∀ k, kind ≠ "s3" → stored_key kind k = GoStrings.ToLower k).
Proof.
  intros kind Hv.
  destruct (prepareMetadata_loop_spec kind metaHeaders ∅ Hv)
    as (m & Hm & Honly & _ & Hall).
  exists m. split; [exact Hm|]. split; [|split; [exact Hall|split]].
  - intros key val Hl. destruct (Honly key val Hl) as [Hin|?]; [|done].
    by rewrite lookup_empty in Hin.
  - intros k name E. unfold stored_key. simpl. rewrite E. apply Replace1_prefix.
  - intros k Hne. unfold stored_key.
    destruct (String.eqb_spec kind "s3"); [done|done].
Qed.

(** A kept header without a value stops the translation: [v[0]] is out of
    range. *)
Lemma prepareMetadata_no_value (obj : object.FileObject)
    (metaHeaders : list (string * list string)) :
  has_values (config.Kind (object.Storage obj)) metaHeaders = false →
  prepareMetadata obj metaHeaders = Panic IndexOutOfRange.
Proof.
  unfold prepareMetadata. generalize (∅ : gmap string Value).
  induction metaHeaders as [|[k v] rest IH]; intros metadata Hv; [done|].
  rewrite prepareMetadata_step. simpl in Hv.
  destruct (kept _ k) eqn:Ek.
  - destruct v as [|x vs]; [done|]. simpl in Hv. by apply IH.
  - simpl in Hv. by apply IH.
Qed.

(** C5: the translation of [sample_headers] for s3. *)
Lemma prepareMetadata_translation_witness :
  has_values "s3" sample_headers = true
  ∧ ∃ m, prepareMetadata (sample_object "s3" "" "k") sample_headers = Done m
      ∧ is_Some (m !! "color") ∧ is_Some (m !! "content-type").
Proof.
  split; [reflexivity|].
  destruct (prepareMetadata_translation (sample_object "s3" "" "k") sample_headers eq_refl)
    as (m & Hm & _ & Hall & _).
  exists m. split; [exact Hm|]. split.
  - apply (Hall "X-Amz-Meta-Color" ["red"; "blue"]); [|reflexivity].
    apply elem_of_cons. by left.
  - apply (Hall "Content-Type" ["text/plain"]); [|reflexivity].
    apply elem_of_cons. right. apply elem_of_cons. by left.
Defined.

(** C5 as stated fails: for the local kind x-amz-meta-foo is stored under
    x-amz-meta-foo, and nothing is stored under foo. *)
Lemma prepareMetadata_keeps_prefix_outside_s3 :
  prepareMetadata (sample_object "local" "" "k") [("x-amz-meta-foo", ["bar"])]
    = Done {["x-amz-meta-foo" := VString "bar"]}
  ∧ ({["x-amz-meta-foo" := VString "bar"]} : gmap string Value) !! "foo" = None.
Proof. split; vm_compute; reflexivity. Qed.

(** *** Outbound translation and the round trip *)

(** C7. For the s3 kind, storing the header x-amz-meta-color: red (in any
    letter case of its name) and translating the stored map back, in any
    iteration order, adds exactly the response header x-amz-meta-color: red;
    storing Content-Type: text/plain adds exactly content-type: text/plain,
    with no prefix; storing both, in either order, adds exactly the two. *)
Theorem metadata_roundtrip_s3 (obj : object.FileObject) (res : response.Response)
    (k1 k2 : string) :
  config.Kind (object.Storage obj) = "s3" →
  GoStrings.ToLower k1 = "x-amz-meta-color" →
  GoStrings.ToLower k2 = "content-type" →
  (∃ stored, prepareMetadata obj [(k1, ["red"])] = Done stored
     ∧ ∀ l, l ≡ₚ map_to_list stored →
         ∃ res', parseMetadata obj l res = Done res'
           ∧ response.Headers res' = <["x-amz-meta-color" := "red"]> (response.Headers res))
  ∧ (∃ stored, prepareMetadata obj [(k2, ["text/plain"])] = Done stored
     ∧ ∀ l, l ≡ₚ map_to_list stored →
         ∃ res', parseMetadata obj l res = Done res'
           ∧ response.Headers res' = <["content-type" := "text/plain"]> (response.Headers res))
  ∧ (∀ metaHeaders, metaHeaders ≡ₚ [(k1, ["red"]); (k2, ["text/plain"])] →
     ∃ stored, prepareMetadata obj metaHeaders = Done stored
       ∧ ∀ l, l ≡ₚ map_to_list stored →
           ∃ res', parseMetadata obj l res = Done res'
             ∧ response.Headers res'
               = <["x-amz-meta-color" := "red"]>
                   (<["content-type" := "text/plain"]> (response.Headers res))).
Proof.
  intros Hkind Hk1 Hk2. split; [|split].
  - exists {["color" := VString "red"]}. split.
    { unfold prepareMetadata. rewrite Hkind, prepareMetadata_step.
      unfold kept, stored_key. rewrite Hk1. reflexivity. }
    intros l Hl. rewrite map_to_list_singleton in Hl.
    apply Permutation_singleton_r in Hl as ->.
    exists (response.Set_ res "x-amz-meta-color" "red"). split; [|reflexivity].
    unfold parseMetadata. rewrite Hkind. reflexivity.
  - exists {["content-type" := VString "text/plain"]}. split.
    { unfold prepareMetadata. rewrite Hkind, prepareMetadata_step.
      unfold kept, stored_key. rewrite Hk2. reflexivity. }
    intros l Hl. rewrite map_to_list_singleton in Hl.
    apply Permutation_singleton_r in Hl as ->.
    exists (response.Set_ res "content-type" "text/plain"). split; [|reflexivity].
    unfold parseMetadata. rewrite Hkind. reflexivity.
  - intros metaHeaders Hm.
    exists (<["color" := VString "red"]> {["content-type" := VString "text/plain"]}).
    split.
    { assert (Hkept1 : kept "s3" k1 = true) by (unfold kept; by rewrite Hk1).
      assert (Hkept2 : kept "s3" k2 = true) by (unfold kept; by rewrite Hk2).
      symmetry in Hm. apply Permutation_length_2_inv in Hm as [->| ->];
        unfold prepareMetadata; rewrite Hkind;
        rewrite !prepareMetadata_step_kept by done;
        unfold stored_key; rewrite Hk1, Hk2; reflexivity. }
    intros l Hl.
    rewrite map_to_list_insert, map_to_list_singleton in Hl by done.
    symmetry in Hl. apply Permutation_length_2_inv in Hl as [->| ->].
    + exists (response.Set_ (response.Set_ res "x-amz-meta-color" "red")
                "content-type" "text/plain").
      split; [unfold parseMetadata; rewrite Hkind; reflexivity|].
      cbn. apply insert_insert_ne. done.
    + exists (response.Set_ (response.Set_ res "content-type" "text/plain")
                "x-amz-meta-color" "red").
      split; [unfold parseMetadata; rewrite Hkind; reflexivity|reflexivity].
Qed.

(** C7 on a sample s3 object and a fresh response. *)
Lemma metadata_roundtrip_s3_witness :
  config.Kind (object.Storage (sample_object "s3" "" "k")) = "s3"
  ∧ GoStrings.ToLower "x-amz-meta-color" = "x-amz-meta-color"
  ∧ GoStrings.ToLower "Content-Type" = "content-type"
  ∧ ∃ stored, prepareMetadata (sample_object "s3" "" "k") [("Content-Type", ["text/plain"])]
                = Done stored
      ∧ ∀ l, l ≡ₚ map_to_list stored →
          ∃ res', parseMetadata (sample_object "s3" "" "k") l (response.New 200 None) = Done res'
            ∧ response.Headers res' = <["content-type" := "text/plain"]> ∅.
Proof.
  split; [reflexivity|]. split; [reflexivity|]. split; [reflexivity|].
  exact (proj1 (proj2 (metadata_roundtrip_s3 (sample_object "s3" "" "k")
                         (response.New 200 None)
                         "x-amz-meta-color" "Content-Type" eq_refl eq_refl eq_refl))).
Defined.

(** *** The content type of a response *)

Lemma ContentType_Set_ne res k s :
  GoStrings.ToLower k ≠ "content-type" →
  response.ContentType (response.Set_ res k s) = response.ContentType res.
Proof. intros H. unfold response.ContentType. simpl. by rewrite lookup_insert_ne. Qed.


Lemma ToLower_x_prefix k :
  GoStrings.HasPrefix k "x-" = true → GoStrings.ToLower k ≠ "content-type".
Proof.
  destruct k as [|c k]; [done|]. simpl.
  destruct (Ascii.eqb_spec c "x") as [->|]; [|done]. intros _. simpl. done.
Qed.

Lemma bind_Done {A B} (a : A) (k : A → run B) : (Done a ≫= k) = k a.
Proof. reflexivity. Qed.

Lemma bind_inv {A B} (m : run A) (k : A → run B) (b : B) :
  m ≫= k = Done b → ∃ a, m = Done a ∧ k a = Done b.
Proof. destruct m as [a|p]; [|done]. intros H. by exists a. Qed.

Lemma parseMetadata_pass_cons k v rest res :
  parseMetadata_pass ((k, v) :: rest) res =
  (if String.eqb (GoStrings.ToLower k) "cache-control"
   then s ← as_string v; Done (response.Set_ res (GoStrings.ToLower k) s)
   else Done res) ≫= λ res,
  (if GoStrings.HasPrefix (GoStrings.ToLower k) "x-"
   then s ← as_string v; Done (response.Set_ res (GoStrings.ToLower k) s)
   else Done res) ≫= λ res, parseMetadata_pass rest res.
Proof. reflexivity. Qed.

Lemma parseMetadata_pass_content_type metadata : ∀ res res',
  parseMetadata_pass metadata res = Done res' →
  response.ContentType res' = response.ContentType res.
Proof.
  induction metadata as [|[k v] rest IH]; intros res res' H.
  { by inversion H. }
  rewrite parseMetadata_pass_cons in H.
  apply bind_inv in H as (res1 & H1 & H). apply bind_inv in H as (res2 & H2 & H).
  apply IH in H. rewrite H.
  assert (response.ContentType res1 = response.ContentType res) as <-.
  { destruct (String.eqb_spec (GoStrings.ToLower k) "cache-control") as [E|_].
    - apply bind_inv in H1 as (s & _ & H1). inversion H1; subst.
      apply ContentType_Set_ne. rewrite E. done.
    - by inversion H1. }
  destruct (GoStrings.HasPrefix (GoStrings.ToLower k) "x-") eqn:Ex.
  - apply bind_inv in H2 as (s & _ & H2). inversion H2; subst.
    apply ContentType_Set_ne. by apply ToLower_x_prefix.
  - by inversion H2.
Qed.


Lemma parseMetadata_s3_cons k v rest res :
  parseMetadata_s3 ((k, v) :: rest) res =
  as_string v ≫= λ s,
    parseMetadata_s3 rest
      (if String.eqb k "cache-control" || String.eqb k "content-type"
       then response.Set_ res k s
       else response.Set_ res (GoStrings.Join ["x-amz-meta"; k] "-") s).
Proof. reflexivity. Qed.



Lemma parseMetadata_pass_StatusCode metadata : ∀ res res',
  parseMetadata_pass metadata res = Done res' →
  response.StatusCode res' = response.StatusCode res.
Proof.
  induction metadata as [|[k v] rest IH]; intros res res' H.
  { by inversion H. }
  rewrite parseMetadata_pass_cons in H.
  apply bind_inv in H as (res1 & H1 & H). apply bind_inv in H as (res2 & H2 & H).
  apply IH in H. rewrite H.
  assert (response.StatusCode res1 = response.StatusCode res) as <-.
  { destruct (String.eqb _ "cache-control").
    - apply bind_inv in H1 as (s & _ & H1). by inversion H1.
    - by inversion H1. }
  destruct (GoStrings.HasPrefix _ "x-").
  - apply bind_inv in H2 as (s & _ & H2). by inversion H2.
  - by inversion H2.
Qed.

Lemma parseMetadata_s3_StatusCode metadata : ∀ res res',
  parseMetadata_s3 metadata res = Done res' →
  response.StatusCode res' = response.StatusCode res.
Proof.
  induction metadata as [|[k v] rest IH]; intros res res' H.
  { by inversion H. }
  rewrite parseMetadata_s3_cons in H.
  apply bind_inv in H as (s & _ & H). apply IH in H. rewrite H.
  by destruct (_ || _).
Qed.

Lemma parseMetadata_StatusCode obj metadata res res' :
  parseMetadata obj metadata res = Done res' →
  response.StatusCode res' = response.StatusCode res.
Proof.
  intros H. unfold parseMetadata in H.
  apply bind_inv in H as (res1 & E1 & H).
  apply parseMetadata_pass_StatusCode in E1.
  destruct (String.eqb _ "s3").
  - apply parseMetadata_s3_StatusCode in H. congruence.
  - inversion H; subst. done.
Qed.




(** *** Get, Head and Delete *)

Lemma getClient_cached (rt : Runtime) obj cache client cache' :
  getClient rt obj cache = (Ok client, cache') →
  getClient rt obj cache' = (Ok client, cache').
Proof.
  unfold getClient.
  destruct (cache !! config.Hash (object.Storage obj)) as [c|] eqn:E.
  { intros H. inversion H; subst. by rewrite E. }
  destruct (Dial rt _ _) as [loc|e]; [|done].
  destruct (GetContainer loc _) as [c|e].
  - intros H. inversion H; subst. by rewrite lookup_insert_eq.
  - destruct (is_ErrNotFound e && _); [|done].
    destruct (CreateContainer loc _) as [c|e']; [|done].
    intros H. inversion H; subst. by rewrite lookup_insert_eq.
Qed.

(** C8. [Get] answers 503 when the client cannot be resolved, 404 with the
    body [notFound] when the backend does not find the item, 500 on any other
    fetch error, and 404 with an empty body and the content type
    application/xml for a directory; [notFound] is the JSON text with the key
    error and the value item not found. *)
Theorem Get_error_mapping (rt : Runtime) (obj : object.FileObject) (cache : Cache) :
  (∀ err cache', getClient rt obj cache = (Err err, cache') →
     Get rt obj cache = (Done (response.NewError 503 err), cache'))
  ∧ (∀ client cache', getClient rt obj cache = (Ok client, cache') →
     (GetItem client (getKey obj) = Err ErrNotFound →
        Get rt obj cache = (Done (response.NewString 404 notFound), cache'))
     ∧ (∀ msg, GetItem client (getKey obj) = Err (ErrOther msg) →
        Get rt obj cache = (Done (response.NewError 500 (ErrOther msg)), cache'))
     ∧ (∀ item, GetItem client (getKey obj) = Ok item → isDir item = Done true →
        ∃ res, Get rt obj cache = (Done res, cache')
               ∧ response.StatusCode res = 404
               ∧ response.body res = response.NoBody
               ∧ response.ContentLength res = 0
               ∧ response.ContentType res = Some "application/xml"))
  ∧ response.StatusCode (response.NewString 404 notFound) = 404
  ∧ response.body (response.NewString 404 notFound) = response.Text notFound
  ∧ GoStrings.bytes notFound
    = GoStrings.bytes "{" ++ ["034"%char] ++ GoStrings.bytes "error" ++ ["034"%char]
      ++ GoStrings.bytes ":" ++ ["034"%char] ++ GoStrings.bytes "item not found"
      ++ ["034"%char] ++ GoStrings.bytes "}"
  ∧ (∀ err, response.StatusCode (response.NewError 503 err) = 503
            ∧ response.StatusCode (response.NewError 500 err) = 500).
Proof.
  split; [|split; [|repeat split]].
  - intros err cache' H. unfold Get. by rewrite H.
  - intros client cache' H. unfold Get. rewrite H. split; [|split].
    + intros E. by rewrite E.
    + intros msg E. by rewrite E.
    + intros item E Hd. rewrite E, Hd. eexists. split; [reflexivity|].
      repeat split.
Qed.

(** C8 on a directory of the sample backend. *)
Lemma Get_error_mapping_witness :
  let dir := sample_item "photos" "photos" 0 [] in
  let c := sample_container [dir] None in
  let rt := sample_runtime (Ok c) in
  let obj := sample_object "local" "" "photos" in
  getClient rt obj ∅ = (Ok c, {["hash-1" := c]})
  ∧ GetItem c (getKey obj) = Ok dir
  ∧ isDir dir = Done true
  ∧ ∃ res, Get rt obj ∅ = (Done res, {["hash-1" := c]})
           ∧ response.StatusCode res = 404
           ∧ response.body res = response.NoBody
           ∧ response.ContentLength res = 0
           ∧ response.ContentType res = Some "application/xml".
Proof.
  intros dir c rt obj.
  split; [reflexivity|]. split; [reflexivity|]. split; [reflexivity|].
  exact (proj2 (proj2 (proj1 (proj2 (Get_error_mapping rt obj ∅))
                         c {["hash-1" := c]} eq_refl))
           dir eq_refl eq_refl).
Defined.

Lemma Set_with_body b r k s :
  response.Set_ (with_body b r) k s = with_body b (response.Set_ r k s).
Proof. reflexivity. Qed.

Lemma bind_Panic {A B} (p : panic) (k : A → run B) : (Panic p ≫= k) = Panic p.
Proof. reflexivity. Qed.

Lemma parseMetadata_pass_with_body b metadata : ∀ res,
  parseMetadata_pass metadata (with_body b res)
  = with_body b <$> parseMetadata_pass metadata res.
Proof.
  induction metadata as [|[k v] rest IH]; intros res; [done|].
  rewrite !parseMetadata_pass_cons.
  destruct (String.eqb _ "cache-control"), (GoStrings.HasPrefix _ "x-");
    destruct v; cbn [as_string];
    rewrite ?bind_Done, ?bind_Panic, ?Set_with_body; try done; apply IH.
Qed.

Lemma parseMetadata_s3_with_body b metadata : ∀ res,
  parseMetadata_s3 metadata (with_body b res)
  = with_body b <$> parseMetadata_s3 metadata res.
Proof.
  induction metadata as [|[k v] rest IH]; intros res; [done|].
  rewrite !parseMetadata_s3_cons.
  destruct v; try done. cbn [as_string]. rewrite !bind_Done.
  destruct (_ || _); rewrite Set_with_body; apply IH.
Qed.

Lemma parseMetadata_with_body b obj metadata res :
  parseMetadata obj metadata (with_body b res)
  = with_body b <$> parseMetadata obj metadata res.
Proof.
  unfold parseMetadata. rewrite parseMetadata_pass_with_body.
  destruct (parseMetadata_pass metadata res) as [r|p]; [|done].
  cbn [fmap run_fmap]. rewrite !bind_Done.
  destruct (String.eqb _ "s3"); [apply parseMetadata_s3_with_body|done].
Qed.

Lemma prepareResponse_attach (rt : Runtime) obj reader item :
  prepareResponse rt obj (Some reader) item
  = attach reader <$> prepareResponse rt obj None item.
Proof.
  unfold prepareResponse.
  destruct (Metadata item) as [metadata|err]; [|done].
  change (response.New 200 (Some reader))
    with (with_body (response.Reader reader) (response.New 200 None)).
  rewrite parseMetadata_with_body.
  destruct (parseMetadata obj metadata (response.New 200 None)) as [r0|p] eqn:E0;
    [|done].
  apply parseMetadata_StatusCode in E0. cbn [fmap run_fmap]. rewrite !bind_Done.
  destruct (ETag item) as [etag [e|]]; [done|].
  destruct (LastMod item) as [lastMod [e|]]; [done|].
  cbv zeta.
  destruct (Size item) as [size [e|]], (negb (String.eqb etag EmptyString));
    (destruct (mget "Content-Type" metadata) as [[]|];
     [cbn [as_string]; rewrite ?bind_Done, ?bind_Panic..|];
     [| | |destruct (mget "content-type" metadata) as [[]|];
           [cbn [as_string]; rewrite ?bind_Done, ?bind_Panic..|];
           [| | |destruct (negb (String.eqb _ EmptyString));
                 [|destruct (isDir item) as [[|]|]; rewrite ?bind_Done, ?bind_Panic]]]);
    cbn [fmap run_fmap]; try reflexivity;
    unfold attach; cbn [response.StatusCode response.SetContentType response.Set_
                        response.SetContentLength with_body];
    rewrite E0; reflexivity.
Qed.

Lemma prepareResponse_body_None (rt : Runtime) obj item res :
  prepareResponse rt obj None item = Done res →
  response.StatusCode res = 200 →
  response.body res = response.NoBody.
Proof.
  unfold prepareResponse.
  destruct (Metadata item) as [metadata|err].
  2:{ intros H; inversion H; subst. done. }
  change (response.New 200 None)
    with (with_body response.NoBody (response.New 200 None)).
  rewrite parseMetadata_with_body.
  destruct (parseMetadata obj metadata (response.New 200 None)) as [r0|p];
    [|done].
  cbn [fmap run_fmap]. rewrite !bind_Done.
  destruct (ETag item) as [etag [e|]]; [intros H; inversion H; subst; done|].
  destruct (LastMod item) as [lastMod [e|]]; [intros H; inversion H; subst; done|].
  cbv zeta.
  destruct (Size item) as [size [e|]], (negb (String.eqb etag EmptyString));
    (destruct (mget "Content-Type" metadata) as [[]|];
     [cbn [as_string]; rewrite ?bind_Done, ?bind_Panic..|];
     [| | |destruct (mget "content-type" metadata) as [[]|];
           [cbn [as_string]; rewrite ?bind_Done, ?bind_Panic..|];
           [| | |destruct (negb (String.eqb _ EmptyString));
                 [|destruct (isDir item) as [[|]|]; rewrite ?bind_Done, ?bind_Panic]]]);
    intros H; inversion H; subst; reflexivity.
Qed.

(** C2, amended. [Head] resolves the client and fetches the item as [Get]
    does, with the same 503, 404 and 500 answers. For an item that is not a
    directory and whose stream opens, the answer of [Get] is that of [Head]
    with the stream attached on a 200, and the 200 of [Head] has no body. For
    a directory [Get] answers 404 with an empty body and application/xml,
    while [Head] makes no directory check and answers from the item. *)
Theorem Head_refines_Get (rt : Runtime) (obj : object.FileObject) (cache : Cache) :
  (∀ err cache', getClient rt obj cache = (Err err, cache') →
     Head rt obj cache = (Done (response.NewError 503 err), cache')
     ∧ Get rt obj cache = Head rt obj cache)
  ∧ (∀ client cache', getClient rt obj cache = (Ok client, cache') →
     (∀ err, GetItem client (getKey obj) = Err err →
        Head rt obj cache
        = (Done (if is_ErrNotFound err then response.NewString 404 notFound
                 else response.NewError 500 err), cache')
        ∧ Get rt obj cache = Head rt obj cache)
     ∧ (∀ item reader, GetItem client (getKey obj) = Ok item →
        isDir item = Done false → Open item = Ok reader →
        Head rt obj cache = (prepareResponse rt obj None item, cache')
        ∧ Get rt obj cache = (attach reader <$> (Head rt obj cache).1, cache')
        ∧ (∀ h, (Head rt obj cache).1 = Done h → response.StatusCode h = 200 →
             response.body h = response.NoBody))
     ∧ (∀ item, GetItem client (getKey obj) = Ok item →
        isDir item = Done true →
        Head rt obj cache = (prepareResponse rt obj None item, cache')
        ∧ Get rt obj cache
          = (Done (response.SetContentType (response.NewNoContent 404) "application/xml"),
             cache'))).
Proof.
  split.
  - intros err cache' H. unfold Get, Head. rewrite H. done.
  - intros client cache' H. unfold Get, Head. rewrite H. split; [|split].
    + intros err E. rewrite E. by destruct (is_ErrNotFound err).
    + intros item reader E Hd Ho. rewrite E, Hd, Ho. cbn [fst].
      split; [done|]. split.
      * rewrite bind_Done. cbn [negb]. by rewrite prepareResponse_attach.
      * intros h Hh Hs. by eapply prepareResponse_body_None.
    + intros item E Hd. rewrite E, Hd. done.
Qed.

(** C2 on a regular file of the sample backend. *)
Lemma Head_refines_Get_witness :
  let file := sample_item "a/b.png" "b.png" 3 [] in
  let c := sample_container [file] None in
  let rt := sample_runtime (Ok c) in
  let obj := sample_object "local" "" "a/b.png" in
  getClient rt obj ∅ = (Ok c, {["hash-1" := c]})
  ∧ GetItem c (getKey obj) = Ok file
  ∧ isDir file = Done false
  ∧ Open file = Ok "content"
  ∧ Head rt obj ∅ = (prepareResponse rt obj None file, {["hash-1" := c]})
  ∧ Get rt obj ∅ = (attach "content" <$> (Head rt obj ∅).1, {["hash-1" := c]})
  ∧ (∀ h, (Head rt obj ∅).1 = Done h → response.StatusCode h = 200 →
       response.body h = response.NoBody).
Proof.
  intros file c rt obj.
  split; [reflexivity|]. split; [reflexivity|]. split; [reflexivity|].
  split; [reflexivity|].
  exact (proj1 (proj2 (proj2 (Head_refines_Get rt obj ∅) c {["hash-1" := c]} eq_refl))
           file "content" eq_refl eq_refl eq_refl).
Defined.

(** C2 as stated fails: for an empty item without metadata, a directory,
    [Get] answers 404 and [Head] answers 200 with the content type
    application/directory. *)
Lemma Head_serves_directory :
  let dir := sample_item "photos" "photos" 0 [] in
  let rt := sample_runtime (Ok (sample_container [dir] None)) in
  let obj := sample_object "local" "" "photos" in
  isDir dir = Done true
  ∧ (Get rt obj ∅).1
    = Done (response.SetContentType (response.NewNoContent 404) "application/xml")
  ∧ (∃ h, (Head rt obj ∅).1 = Done h
          ∧ response.StatusCode h = 200
          ∧ response.ContentType h = Some "application/directory")
  ∧ ¬ Head_answers_as_Get rt obj ∅.
Proof.
  intros dir rt obj. split; [reflexivity|]. split; [reflexivity|]. split.
  - eexists. split; [reflexivity|]. split; [reflexivity|]. vm_compute. reflexivity.
  - unfold Head_answers_as_Get. intros H.
    assert (Hs : response.StatusCode <$> (Head rt obj ∅).1
                 = response.StatusCode <$> (Get rt obj ∅).1) by (by rewrite H).
    vm_compute in Hs. discriminate.
Qed.

(** C3. Whatever [Head] answers for the object: on a 404 [Delete] answers 200
    with no content; on a 200 the client is there and [Delete] answers 500
    when the removal fails and the answer of [Head] when it succeeds; on any
    other status [Delete] hands back the answer of [Head] unchanged. *)
Theorem Delete_after_Head (rt : Runtime) (obj : object.FileObject) (cache : Cache)
    (resHead : response.Response) (cache' : Cache) :
  Head rt obj cache = (Done resHead, cache') →
  (response.StatusCode resHead = 404 →
     Delete rt obj cache = (Done (response.NewNoContent 200), cache')
     ∧ response.StatusCode (response.NewNoContent 200) = 200)
  ∧ (response.StatusCode resHead = 200 →
     ∃ client, getClient rt obj cache = (Ok client, cache')
       ∧ (∀ err, RemoveItem client (getKey obj) = Some err →
            Delete rt obj cache = (Done (response.NewError 500 err), cache')
            ∧ response.StatusCode (response.NewError 500 err) = 500)
       ∧ (RemoveItem client (getKey obj) = None →
            Delete rt obj cache = (Done resHead, cache')))
  ∧ (response.StatusCode resHead ≠ 200 → response.StatusCode resHead ≠ 404 →
     Delete rt obj cache = (Done resHead, cache')).
Proof.
  intros HH. unfold Delete.
  destruct (getClient rt obj cache) as [[client|err] cache1] eqn:Hc.
  - assert (HH1 : Head rt obj cache1 = (Done resHead, cache') ∧ cache1 = cache').
    { pose proof (getClient_cached _ _ _ _ _ Hc) as Hc1.
      unfold Head in HH |- *. rewrite Hc in HH. rewrite Hc1.
      destruct (GetItem client (getKey obj)) as [item|e].
      - by inversion HH.
      - destruct (is_ErrNotFound e); by inversion HH. }
    destruct HH1 as [HH1 ->]. rewrite HH1.
    split; [|split].
    + intros Hs. rewrite Hs. done.
    + intros Hs. rewrite Hs. exists client. split; [done|]. split.
      * intros err Hr. by rewrite Hr.
      * intros Hr. by rewrite Hr.
    + intros H2 H4. apply Z.eqb_neq in H2, H4. by rewrite H2, H4.
  - unfold Head in HH. rewrite Hc in HH. inversion HH; subst.
    split; [done|]. split; [done|]. done.
Qed.

(** C3 on a key the backend does not hold. *)
Lemma Delete_after_Head_witness :
  let rt := sample_runtime (Ok (sample_container [] None)) in
  let obj := sample_object "local" "" "gone" in
  Head rt obj ∅ = (Done (response.NewString 404 notFound),
                   {["hash-1" := sample_container [] None]})
  ∧ Delete rt obj ∅ = (Done (response.NewNoContent 200),
                       {["hash-1" := sample_container [] None]}).
Proof.
  intros rt obj.
  assert (H : Head rt obj ∅ = (Done (response.NewString 404 notFound),
                               {["hash-1" := sample_container [] None]}))
    by reflexivity.
  split; [exact H|].
  exact (proj1 (proj1 (Delete_after_Head rt obj ∅ _ _ H) eq_refl)).
Defined.

(** *** The listing *)

Lemma last_byte_None s : GoStrings.last_byte s = None → s = EmptyString.
Proof.
  unfold GoStrings.last_byte, GoStrings.bytes. intros H.
  apply last_None in H. by destruct s.
Qed.

Lemma isDir_panic item p : isDir item = Panic p → p = TypeAssertion.
Proof.
  unfold isDir. destruct (Metadata item) as [md|]; [|done].
  destruct (mget "is_dir" md) as [[]|]; try done; try (by inversion 1).
  destruct (mget "content-type" md) as [[]|]; try done; try (by inversion 1).
  by destruct (Size item) as [? [?|]].
Qed.

(** The pieces of one turn of the loop, named. *)
Lemma List_item_unfold (rt : Runtime) prefix result commonPrefixes item :
  List_item rt prefix (result, commonPrefixes) item =
  (if (length (GoStrings.Split prefix "/") <? length (GoStrings.Split (ID item) "/"))%nat
   then
     let key := GoStrings.Join
                  (take (length (GoStrings.Split prefix "/")) (GoStrings.Split (ID item) "/"))
                  "/" in
     match commonPrefixes !! key with
     | None => Done (key, key, <[key := true]> commonPrefixes)
     | Some _ => Done (key, EmptyString, commonPrefixes)
     end
   else
     isDir item ≫= λ d : bool,
       match commonPrefixes !! Name item with
       | None =>
           if d then Done (Name item, Name item, <[Name item := true]> commonPrefixes)
           else Done (Name item, EmptyString, commonPrefixes)
       | Some _ => Done (Name item, EmptyString, commonPrefixes)
       end) ≫= λ '(key, commonPrefix, commonPrefixes),
  match GoStrings.last_byte (ID item) with
  | Some c => Done c
  | None => Panic IndexOutOfRange
  end ≫= λ c,
  let '(key, size) :=
    if Ascii.eqb c "/" then (key +:+ "/", 0) else (key, (Size item).1) in
  let result :=
    if negb (String.eqb key EmptyString) then
      {| lName := lName result; Prefix := Prefix result; Marker := Marker result;
         MaxKeys := MaxKeys result; IsTruncated := IsTruncated result;
         Contents := Contents result ++
           [{| cKey := key; StorageClass := "STANDARD";
               LastModified := FormatRFC3339 rt (LastMod item).1;
               cETag := (ETag item).1; cSize := size |}];
         CommonPrefixes := CommonPrefixes result |}
    else result in
  let result :=
    if negb (String.eqb commonPrefix EmptyString) then
      {| lName := lName result; Prefix := Prefix result; Marker := Marker result;
         MaxKeys := MaxKeys result; IsTruncated := IsTruncated result;
         Contents := Contents result;
         CommonPrefixes := CommonPrefixes result ++
           [{| cpPrefix := commonPrefix +:+ "/" |}] |}
    else result in
  Done (result, commonPrefixes).
Proof. reflexivity. Qed.

(** A turn that returns: the key and the common prefix it settled on. *)
Lemma List_item_Done (rt : Runtime) prefix result seen item st' :
  List_item rt prefix (result, seen) item = Done st' →
  ∃ key commonPrefix : string,
    same_header result st'.1
    ∧ CommonPrefixes st'.1
      = CommonPrefixes result
        ++ (if negb (String.eqb commonPrefix EmptyString)
            then [{| cpPrefix := commonPrefix +:+ "/" |}] else [])
    ∧ (commonPrefix = EmptyString ∧ st'.2 = seen
       ∨ seen !! commonPrefix = None ∧ st'.2 = <[commonPrefix := true]> seen)
    ∧ GoStrings.last_byte (ID item) ≠ None.
Proof.
  rewrite List_item_unfold. intros H.
  apply bind_inv in H as ([[key commonPrefix] seen'] & H1 & H).
  apply bind_inv in H as (c & Hc & H).
  exists key, commonPrefix.
  assert (Hseen : commonPrefix = EmptyString ∧ seen' = seen
                  ∨ seen !! commonPrefix = None ∧ seen' = <[commonPrefix := true]> seen).
  { destruct (_ <? _)%nat.
    - cbv zeta in H1. destruct (seen !! _) eqn:E; inversion H1; subst; auto.
    - apply bind_inv in H1 as (d & _ & H1).
      destruct (seen !! Name item) eqn:E; [inversion H1; subst; auto|].
      destruct d; inversion H1; subst; auto. }
  assert (Hlast : GoStrings.last_byte (ID item) ≠ None).
  { by destruct (GoStrings.last_byte (ID item)). }
  clear H1 Hc.
  destruct (Ascii.eqb c "/"); cbv zeta iota beta in H;
    [destruct (negb (String.eqb (key +:+ "/") EmptyString))
    |destruct (negb (String.eqb key EmptyString))];
    destruct (negb (String.eqb commonPrefix EmptyString));
    inversion H; subst; cbn [fst snd CommonPrefixes];
    repeat split; try done; by rewrite ?app_nil_r.
Qed.

Lemma append_slash_inj (p q : string) : p +:+ "/" = q +:+ "/" → p = q.
Proof.
  revert q. induction p as [|c p IH]; intros [|d q] H; simpl in H.
  - done.
  - inversion H; subst. by destruct q.
  - inversion H; subst. by destruct p.
  - inversion H; subst. f_equal. by apply IH.
Qed.

Lemma List_item_prefixes_seen (rt : Runtime) prefix st item st' :
  List_item rt prefix st item = Done st' →
  prefixes_seen st → prefixes_seen st'.
Proof.
  destruct st as [result seen]. intros H [Hnd Hin].
  apply List_item_Done in H as (key & cp & _ & Hcp & Hseen & _).
  unfold prefixes_seen. rewrite Hcp. cbn [fst snd] in *.
  destruct Hseen as [[-> ->]|[Hnone ->]].
  - simpl. rewrite app_nil_r. done.
  - split.
    + destruct (negb _); [|by rewrite app_nil_r].
      apply NoDup_app. split; [done|]. split; [|apply NoDup_singleton].
      intros x Hx Hx'. apply list_elem_of_singleton in Hx' as ->.
      destruct (Hin _ Hx) as (p & Hp & Hs). simpl in Hp.
      apply append_slash_inj in Hp as <-. rewrite Hnone in Hs.
      by destruct Hs.
    + intros x Hx. apply elem_of_app in Hx as [Hx|Hx].
      * destruct (Hin _ Hx) as (p & Hp & Hs). exists p. split; [done|].
        destruct (decide (cp = p)) as [->|Hne].
        -- rewrite lookup_insert_eq. eauto.
        -- by rewrite lookup_insert_ne.
      * destruct (negb _); [|by apply not_elem_of_nil in Hx].
        apply list_elem_of_singleton in Hx as ->. exists cp. split; [done|].
        rewrite lookup_insert_eq. eauto.
Qed.

Lemma List_loop_Done (rt : Runtime) prefix items : ∀ st st',
  List_loop rt prefix items st = Done st' →
  same_header st.1 st'.1
  ∧ (prefixes_seen st → prefixes_seen st')
  ∧ ∀ item, item ∈ items → ID item ≠ EmptyString.
Proof.
  induction items as [|item rest IH]; intros st st' H.
  { inversion H; subst. split; [done|]. split; [done|].
    intros item Hin. by apply not_elem_of_nil in Hin. }
  cbn [List_loop] in H. apply bind_inv in H as (st1 & H1 & H).
  destruct (IH _ _ H) as (Hh & Hp & Hid).
  pose proof (List_item_prefixes_seen _ _ _ _ _ H1) as Hp1.
  destruct st as [result seen].
  apply List_item_Done in H1 as (key & cp & Hh1 & _ & _ & Hlast).
  split; [|split].
  - destruct Hh as (? & ? & ? & ? & ?), Hh1 as (? & ? & ? & ? & ?).
    cbn [fst] in *. repeat split; congruence.
  - auto.
  - intros it Hin. apply elem_of_cons in Hin as [->|Hin]; [|by apply Hid].
    intros E. rewrite E in Hlast. done.
Qed.

Lemma List_loop_panic (rt : Runtime) prefix items : ∀ st p,
  List_loop rt prefix items st = Panic p →
  p = TypeAssertion
  ∨ p = IndexOutOfRange ∧ ∃ item, item ∈ items ∧ ID item = EmptyString.
Proof.
  induction items as [|item rest IH]; intros st p H; [done|].
  cbn [List_loop] in H.
  destruct (List_item rt prefix st item) as [st1|q] eqn:E.
  - rewrite bind_Done in H. destruct (IH _ _ H) as [?|[? (it & Hin & Hid)]]; [by left|].
    right. split; [done|]. exists it. split; [by right|done].
  - rewrite bind_Panic in H. inversion H; subst. clear H.
    destruct st as [result seen]. rewrite List_item_unfold in E.
    match type of E with (?m ≫= _) = _ => destruct m as [[[key cp] seen']|q] eqn:E1 end.
    + rewrite bind_Done in E.
      destruct (GoStrings.last_byte (ID item)) as [c|] eqn:El.
      * rewrite bind_Done in E.
        destruct (Ascii.eqb c "/"); cbv zeta iota beta in E; done.
      * rewrite bind_Panic in E. inversion E; subst. right. split; [done|].
        exists item. split; [by left|]. by apply last_byte_None.
    + rewrite bind_Panic in E. inversion E; subst. left.
      destruct (_ <? _)%nat.
      * cbv zeta in E1. by case_match.
      * destruct (isDir item) as [d|q] eqn:Ed.
        -- rewrite bind_Done in E1. case_match; [done|]. by destruct d.
        -- rewrite bind_Panic in E1. inversion E1; subst. by eapply isDir_panic.
Qed.

Lemma List_loop_empty_id (rt : Runtime) prefix items : ∀ st item,
  item ∈ items → ID item = EmptyString →
  ∃ p, List_loop rt prefix items st = Panic p
       ∧ ((∀ it q, it ∈ items → isDir it ≠ Panic q) → p = IndexOutOfRange).
Proof.
  intros st item Hin Hid.
  destruct (List_loop rt prefix items st) as [st'|p] eqn:E.
  - apply List_loop_Done in E as (_ & _ & Hne). by destruct (Hne item Hin).
  - exists p. split; [done|]. intros Hwt.
    revert st E. induction items as [|it rest IH]; intros st E; [done|].
    cbn [List_loop] in E.
    destruct (List_item rt prefix st it) as [st1|q] eqn:E1.
    + rewrite bind_Done in E.
      destruct (List_item_Done rt prefix st.1 st.2 it st1) as (_ & _ & _ & _ & _ & Hl).
      { by destruct st. }
      apply (IH) with (st := st1); [| |done].
      * apply elem_of_cons in Hin as [->|Hin]; [|done].
        rewrite Hid in Hl. done.
      * intros it' q Hit'. apply Hwt. by right.
    + rewrite bind_Panic in E. inversion E; subst. clear E.
      destruct st as [result seen]. rewrite List_item_unfold in E1.
      match type of E1 with (?m ≫= _) = _ => destruct m as [[[key cp] seen']|q] eqn:E2 end.
      * rewrite bind_Done in E1.
        destruct (GoStrings.last_byte (ID it)) as [c|] eqn:El.
        -- rewrite bind_Done in E1.
           destruct (Ascii.eqb c "/"); cbv zeta iota beta in E1; done.
        -- rewrite bind_Panic in E1. by inversion E1.
      * rewrite bind_Panic in E1. inversion E1; subst. exfalso.
        destruct (_ <? _)%nat.
        -- cbv zeta in E2. by case_match.
        -- destruct (isDir it) as [d|q] eqn:Ed.
           ++ rewrite bind_Done in E2. case_match; [done|]. by destruct d.
           ++ eapply (Hwt it q); [by left|done].
Qed.

(** [List] from the listing on, once the client and the items are there. *)
Lemma List_listing (rt : Runtime) obj maxKeys x prefix marker cache client cache'
    items resultMarker :
  getClient rt obj cache = (Ok client, cache') →
  Items client (GoPath.Join [config.PathPrefix (object.Storage obj); prefix])
        marker maxKeys = Ok (items, resultMarker) →
  List rt obj maxKeys x prefix marker cache
  = (Done (response.NewString 404 (object.Key obj)), cache')
  ∨ List rt obj maxKeys x prefix marker cache
    = (List_loop rt (GoPath.Join [config.PathPrefix (object.Storage obj); prefix]) items
         ({| lName := object.Bucket obj;
             Prefix := GoPath.Join [config.PathPrefix (object.Storage obj); prefix];
             Marker := resultMarker; MaxKeys := maxKeys; IsTruncated := false;
             Contents := []; CommonPrefixes := [] |}, ∅)
       ≫= (λ st,
            match xml_Marshal_error rt st.1 with
            | Some err => Done (response.NewError 500 err)
            | None => Done (response.SetContentType (response.NewBuf 200 st.1)
                              "application/xml")
            end),
       cache').
Proof.
  intros Hc Hi. unfold List. rewrite Hc. cbv zeta. rewrite Hi.
  match goal with |- context [if ?b then (Done (response.NewString _ _), _) else _] =>
    destruct b end; [by left|right].
  f_equal. destruct (List_loop _ _ _ _) as [[result seen]|p]; reflexivity.
Qed.

(** C9. Every 200 answer of [List] is the marshalled document of a listing
    whose IsTruncated is false and whose Marker is the marker the backend
    returned with the items, whatever marker the caller passed. *)
Theorem List_not_truncated (rt : Runtime) (obj : object.FileObject) (maxKeys : Z)
    (x prefix marker : string) (cache cache' : Cache) (res : response.Response) :
  List rt obj maxKeys x prefix marker cache = (Done res, cache') →
  response.StatusCode res = 200 →
  ∃ client items resultMarker result,
    getClient rt obj cache = (Ok client, cache')
    ∧ Items client (GoPath.Join [config.PathPrefix (object.Storage obj); prefix])
            marker maxKeys = Ok (items, resultMarker)
    ∧ res = response.SetContentType (response.NewBuf 200 result) "application/xml"
    ∧ IsTruncated result = false
    ∧ Marker result = resultMarker.
Proof.
  intros H Hs.
  destruct (getClient rt obj cache) as [[client|err] cache1] eqn:Hc.
  2:{ unfold List in H. rewrite Hc in H. inversion H; subst. done. }
  destruct (Items client (GoPath.Join [config.PathPrefix (object.Storage obj); prefix])
              marker maxKeys) as [[items resultMarker]|err] eqn:Hi.
  2:{ unfold List in H. rewrite Hc in H. cbv zeta in H. rewrite Hi in H.
      match type of H with context [if ?b then (Done (response.NewString _ _), _) else _] =>
        destruct b end; inversion H; subst; done. }
  destruct (List_listing rt obj maxKeys x prefix marker cache client cache1
              items resultMarker Hc Hi) as [E|E]; rewrite E in H.
  { inversion H; subst. done. }
  inversion H as [[Hr Hcache]]. subst cache1. clear H E.
  apply bind_inv in Hr as ([result seen] & Hl & Hr). cbn [fst] in Hr.
  apply List_loop_Done in Hl as ((_ & _ & Hm & _ & Ht) & _). cbn [fst] in *.
  destruct (xml_Marshal_error rt result) as [err|].
  { inversion Hr; subst. done. }
  inversion Hr; subst. exists client, items, resultMarker, result. done.
Qed.

Lemma List_flat_items :
  List (sample_runtime (Ok (sample_container flat_items None)))
       (sample_object "s3" "" "a/") 1000 "/" "a/" "start" ∅
  = (Done (response.SetContentType (response.NewBuf 200 flat_listing) "application/xml"),
     {["hash-1" := sample_container flat_items None]}).
Proof. reflexivity. Qed.

(** C9 on a backend that returns the marker next to a call made with the
    marker start. *)
Lemma List_not_truncated_witness :
  let rt := sample_runtime (Ok (sample_container flat_items None)) in
  let obj := sample_object "s3" "" "a/" in
  let res := response.SetContentType (response.NewBuf 200 flat_listing) "application/xml" in
  let cache' : Cache := {["hash-1" := sample_container flat_items None]} in
  List rt obj 1000 "/" "a/" "start" ∅ = (Done res, cache')
  ∧ response.StatusCode res = 200
  ∧ ∃ client items resultMarker result,
      getClient rt obj ∅ = (Ok client, cache')
      ∧ Items client (GoPath.Join [config.PathPrefix (object.Storage obj); "a/"])
              "start" 1000 = Ok (items, resultMarker)
      ∧ res = response.SetContentType (response.NewBuf 200 result) "application/xml"
      ∧ IsTruncated result = false
      ∧ Marker result = resultMarker.
Proof.
  intros rt obj res cache'.
  split; [exact List_flat_items|]. split; [reflexivity|].
  exact (List_not_truncated rt obj 1000 "/" "a/" "start" ∅ cache' res List_flat_items eq_refl).
Defined.

(** C10. Once the client and the items are there, an item with the empty id
    makes [List] panic unless the local-meta check already answered 404, and
    the panic is the index out of range when no directory test panics before
    it; when every id is non-empty no index goes out of range, and the only
    panic left is a failed type assertion on the metadata. *)
Theorem List_item_id_index (rt : Runtime) (obj : object.FileObject) (maxKeys : Z)
    (x prefix marker : string) (cache cache' : Cache) (client : Container)
    (items : list Item) (resultMarker : string) :
  getClient rt obj cache = (Ok client, cache') →
  Items client (GoPath.Join [config.PathPrefix (object.Storage obj); prefix])
        marker maxKeys = Ok (items, resultMarker) →
  ((∃ item, item ∈ items ∧ ID item = EmptyString) →
     (List rt obj maxKeys x prefix marker cache).1
       = Done (response.NewString 404 (object.Key obj))
     ∨ ∃ p, (List rt obj maxKeys x prefix marker cache).1 = Panic p
            ∧ ((∀ it q, it ∈ items → isDir it ≠ Panic q) → p = IndexOutOfRange))
  ∧ ((∀ item, item ∈ items → ID item ≠ EmptyString) →
     ∀ p, (List rt obj maxKeys x prefix marker cache).1 = Panic p →
          p = TypeAssertion).
Proof.
  intros Hc Hi.
  destruct (List_listing rt obj maxKeys x prefix marker cache client cache'
              items resultMarker Hc Hi) as [E|E]; rewrite E; cbn [fst].
  { split; [by left|]. intros _ p H. done. }
  split.
  - intros (item & Hin & Hid). right.
    match goal with |- context [List_loop rt ?pf items ?st] =>
      destruct (List_loop_empty_id rt pf items st item Hin Hid) as (p & Hp & Hwt)
    end.
    exists p. rewrite Hp. done.
  - intros Hne p H.
    match type of H with context [List_loop rt ?pf items ?st] =>
      destruct (List_loop rt pf items st) as [st'|q] eqn:El
    end.
    + rewrite bind_Done in H. by destruct (xml_Marshal_error rt st'.1).
    + rewrite bind_Panic in H. inversion H; subst.
      apply List_loop_panic in El as [?|[_ (it & Hin & Hid)]]; [done|].
      by destruct (Hne it Hin).
Qed.

(** C10 on a listing whose second item has the empty id. *)
Lemma List_item_id_index_witness :
  let rt := sample_runtime (Ok (sample_container nameless_items None)) in
  let obj := sample_object "s3" "" "a/" in
  let cache' : Cache := {["hash-1" := sample_container nameless_items None]} in
  getClient rt obj ∅ = (Ok (sample_container nameless_items None), cache')
  ∧ Items (sample_container nameless_items None)
          (GoPath.Join [config.PathPrefix (object.Storage obj); "a/"]) "start" 1000
    = Ok (nameless_items, "next")
  ∧ (∃ item, item ∈ nameless_items ∧ ID item = EmptyString)
  ∧ (List rt obj 1000 "/" "a/" "start" ∅).1 = Panic IndexOutOfRange
  ∧ ((List rt obj 1000 "/" "a/" "start" ∅).1
       = Done (response.NewString 404 (object.Key obj))
     ∨ ∃ p, (List rt obj 1000 "/" "a/" "start" ∅).1 = Panic p
            ∧ ((∀ it q, it ∈ nameless_items → isDir it ≠ Panic q) → p = IndexOutOfRange)).
Proof.
  intros rt obj cache'.
  assert (He : ∃ item, item ∈ nameless_items ∧ ID item = EmptyString).
  { exists (sample_item EmptyString EmptyString 0 []). split; [|reflexivity].
    apply elem_of_cons. right. apply elem_of_cons. by left. }
  split; [reflexivity|]. split; [reflexivity|]. split; [exact He|].
  split; [reflexivity|].
  exact (proj1 (List_item_id_index rt obj 1000 "/" "a/" "start" ∅ cache'
                  (sample_container nameless_items None) nameless_items "next"
                  eq_refl eq_refl) He).
Defined.

Lemma List_flat_keys_listing (rt : Runtime) (obj : object.FileObject) (maxKeys : Z)
    (x marker : string) (cache cache' : Cache) (client : Container)
    (items : list Item) (resultMarker : string) :
  config.PathPrefix (object.Storage obj) = EmptyString →
  getClient rt obj cache = (Ok client, cache') →
  (config.Kind (object.Storage obj) = "local-meta" →
   GetItem client "a" ≠ Err ErrNotFound) →
  Items client "a" marker maxKeys = Ok (items, resultMarker) →
  map ID items = ["a/b"; "a/c"; "a/d/e"] →
  ∃ result,
    List rt obj maxKeys x "a/" marker cache
    = (match xml_Marshal_error rt result with
       | Some err => Done (response.NewError 500 err)
       | None => Done (response.SetContentType (response.NewBuf 200 result)
                         "application/xml")
       end, cache')
    ∧ Prefix result = "a"
    ∧ map cKey (Contents result) = ["a"; "a"; "a"]
    ∧ CommonPrefixes result = [{| cpPrefix := "a/" |}]
    ∧ NoDup (CommonPrefixes result).
Proof.
  intros Hpp Hc Hm Hi Hids.
  destruct items as [|i1 [|i2 [|i3 [|]]]]; try done.
  inversion Hids as [[H1 H2 H3]]. clear Hids.
  set (entry := fun i : Item =>
         {| cKey := "a"; StorageClass := "STANDARD";
            LastModified := FormatRFC3339 rt (LastMod i).1;
            cETag := (ETag i).1; cSize := (Size i).1 |}).
  set (doc := fun cs cps =>
         {| lName := object.Bucket obj; Prefix := "a"; Marker := resultMarker;
            MaxKeys := maxKeys; IsTruncated := false;
            Contents := cs; CommonPrefixes := cps |}).
  exists (doc [entry i1; entry i2; entry i3] [{| cpPrefix := "a/" |}]).
  split; [|repeat split; apply NoDup_singleton].
  unfold List. rewrite Hc, Hpp. cbv zeta.
  change (GoPath.Join [EmptyString; "a/"]) with "a". rewrite Hi.
  match goal with |- context [if ?b then (Done (response.NewString _ _), _) else _] =>
    assert (Hmiss : b = false); [|rewrite Hmiss]
  end.
  { destruct (String.eqb_spec (config.Kind (object.Storage obj)) "local-meta") as [E|_];
      [|done].
    specialize (Hm E). destruct (GetItem client "a") as [?|[|?]]; done. }
  clear Hmiss. f_equal.
  assert (S1 : List_item rt "a" (doc [] [], ∅) i1
               = Done (doc [entry i1] [{| cpPrefix := "a/" |}], {["a" := true]})).
  { rewrite List_item_unfold, H1. reflexivity. }
  assert (S2 : List_item rt "a" (doc [entry i1] [{| cpPrefix := "a/" |}], {["a" := true]}) i2
               = Done (doc [entry i1; entry i2] [{| cpPrefix := "a/" |}], {["a" := true]})).
  { rewrite List_item_unfold, H2. reflexivity. }
  assert (S3 : List_item rt "a"
                 (doc [entry i1; entry i2] [{| cpPrefix := "a/" |}], {["a" := true]}) i3
               = Done (doc [entry i1; entry i2; entry i3] [{| cpPrefix := "a/" |}],
                       {["a" := true]})).
  { rewrite List_item_unfold, H3. reflexivity. }
  cbn [List_loop]. fold (doc [] []).
  rewrite S1, bind_Done, S2, bind_Done, S3, !bind_Done. reflexivity.
Qed.

Lemma List_rooted_keys_listing (rt : Runtime) (obj : object.FileObject) (maxKeys : Z)
    (x marker : string) (cache cache' : Cache) (client : Container)
    (items : list Item) (resultMarker : string) :
  config.PathPrefix (object.Storage obj) = "/" →
  getClient rt obj cache = (Ok client, cache') →
  (config.Kind (object.Storage obj) = "local-meta" →
   GetItem client "/a" ≠ Err ErrNotFound) →
  Items client "/a" marker maxKeys = Ok (items, resultMarker) →
  map ID items = ["a/b"; "a/c"; "a/d/e"] →
  map Name (take 2 items) = ["a/b"; "a/c"] →
  map isDir (take 2 items) = [Done false; Done false] →
  ∃ result,
    List rt obj maxKeys x "a/" marker cache
    = (match xml_Marshal_error rt result with
       | Some err => Done (response.NewError 500 err)
       | None => Done (response.SetContentType (response.NewBuf 200 result)
                         "application/xml")
       end, cache')
    ∧ Prefix result = "/a"
    ∧ map cKey (Contents result) = ["a/b"; "a/c"; "a/d"]
    ∧ CommonPrefixes result = [{| cpPrefix := "a/d/" |}].
Proof.
  intros Hpp Hc Hm Hi Hids Hnames Hdirs.
  destruct items as [|i1 [|i2 [|i3 [|]]]]; try done.
  simpl in Hids, Hnames, Hdirs.
  assert (H1 : ID i1 = "a/b") by congruence.
  assert (H2 : ID i2 = "a/c") by congruence.
  assert (H3 : ID i3 = "a/d/e") by congruence.
  assert (N1 : Name i1 = "a/b") by congruence.
  assert (N2 : Name i2 = "a/c") by congruence.
  assert (D1 : isDir i1 = Done false) by congruence.
  assert (D2 : isDir i2 = Done false) by congruence.
  clear Hids Hnames Hdirs.
  set (entry := fun (key : string) (i : Item) =>
         {| cKey := key; StorageClass := "STANDARD";
            LastModified := FormatRFC3339 rt (LastMod i).1;
            cETag := (ETag i).1; cSize := (Size i).1 |}).
  set (doc := fun cs cps =>
         {| lName := object.Bucket obj; Prefix := "/a"; Marker := resultMarker;
            MaxKeys := maxKeys; IsTruncated := false;
            Contents := cs; CommonPrefixes := cps |}).
  exists (doc [entry "a/b" i1; entry "a/c" i2; entry "a/d" i3] [{| cpPrefix := "a/d/" |}]).
  split; [|repeat split].
  unfold List. rewrite Hc, Hpp. cbv zeta.
  change (GoPath.Join ["/"; "a/"]) with "/a". rewrite Hi.
  match goal with |- context [if ?b then (Done (response.NewString _ _), _) else _] =>
    assert (Hmiss : b = false); [|rewrite Hmiss]
  end.
  { destruct (String.eqb_spec (config.Kind (object.Storage obj)) "local-meta") as [E|_];
      [|done].
    specialize (Hm E). destruct (GetItem client "/a") as [?|[|?]]; done. }
  clear Hmiss. f_equal.
  assert (S1 : List_item rt "/a" (doc [] [], ∅) i1
               = Done (doc [entry "a/b" i1] [], ∅)).
  { rewrite List_item_unfold, H1, N1, D1. reflexivity. }
  assert (S2 : List_item rt "/a" (doc [entry "a/b" i1] [], ∅) i2
               = Done (doc [entry "a/b" i1; entry "a/c" i2] [], ∅)).
  { rewrite List_item_unfold, H2, N2, D2. reflexivity. }
  assert (S3 : List_item rt "/a" (doc [entry "a/b" i1; entry "a/c" i2] [], ∅) i3
               = Done (doc [entry "a/b" i1; entry "a/c" i2; entry "a/d" i3]
                           [{| cpPrefix := "a/d/" |}],
                       {["a/d" := true]})).
  { rewrite List_item_unfold, H3. reflexivity. }
  cbn [List_loop]. fold (doc [] []).
  rewrite S1, bind_Done, S2, bind_Done, S3, !bind_Done. reflexivity.
Qed.

Lemma List_common_prefixes_NoDup (rt : Runtime) obj maxKeys x prefix marker cache
    cache' res result :
  List rt obj maxKeys x prefix marker cache = (Done res, cache') →
  response.body res = response.XMLBuf result →
  NoDup (CommonPrefixes result).
Proof.
  intros H Hb. unfold List in H.
  destruct (getClient rt obj cache) as [[client|err] cache1].
  2:{ inversion H; subst. done. }
  cbv zeta in H.
  match type of H with context [if ?b then (Done (response.NewString _ _), _) else _] =>
    destruct b end.
  { inversion H; subst. done. }
  destruct (Items client _ marker maxKeys) as [[items resultMarker]|err].
  2:{ inversion H; subst. done. }
  inversion H as [[Hr Hcache]]. clear H.
  match type of Hr with context [List_loop rt ?pf items ?st] =>
    destruct (List_loop rt pf items st) as [[r seen]|q] eqn:El
  end; [|done].
  rewrite bind_Done in Hr.
  apply List_loop_Done in El as (_ & Hp & _).
  destruct (xml_Marshal_error rt r).
  { inversion Hr; subst. done. }
  inversion Hr; subst. simpl in Hb. inversion Hb; subst.
  apply Hp. split; [apply NoDup_nil_2|].
  intros cp Hin. by apply not_elem_of_nil in Hin.
Qed.

(** C1. The claim fails at its own input, and by a slip of the loop. On a
    backend that yields the ids a/b, a/c and a/d/e, under the logical prefix
    a/ and an empty path prefix, the effective prefix is the cleaned join a,
    which counts one segment; every id counts more, and the slice
    [filePath[0:len(prefixPath)]] cuts each of them back to the prefix
    itself. The listing holds three content entries with the key a and the
    one common prefix a/, where the claim has the content keys a/b and a/c
    and the one common prefix a/d/. *)
Lemma List_flat_keys_not_as_specified :
  let c := sample_container flat_items None in
  map ID flat_items = ["a/b"; "a/c"; "a/d/e"]
  ∧ List (sample_runtime (Ok c)) (sample_object "s3" "" "a/") 1000 "/" "a/" "start" ∅
    = (Done (response.SetContentType (response.NewBuf 200 flat_listing) "application/xml"),
       {["hash-1" := c]})
  ∧ map cKey (Contents flat_listing) = ["a"; "a"; "a"]
  ∧ CommonPrefixes flat_listing = [{| cpPrefix := "a/" |}]
  ∧ ¬ lists_as_specified flat_listing.
Proof.
  intros c. split; [reflexivity|]. split; [exact List_flat_items|].
  split; [reflexivity|]. split; [reflexivity|].
  intros (_ & _ & H). discriminate H.
Qed.

(** ** Further properties of the package *)

(** *** The client registry *)





(** *** What the operations answer with and leave behind *)

Lemma prepareResponse_status (rt : Runtime) obj stream item res :
  prepareResponse rt obj stream item = Done res →
  response.StatusCode res = 200 ∨ response.StatusCode res = 500.
Proof.
  unfold prepareResponse.
  destruct (Metadata item) as [metadata|err].
  2:{ intros H; inversion H; subst. by right. }
  destruct (parseMetadata obj metadata (response.New 200 stream)) as [r0|p] eqn:E0;
    [|done].
  apply parseMetadata_StatusCode in E0. rewrite bind_Done.
  destruct (ETag item) as [etag [e|]]; [intros H; inversion H; subst; by right|].
  destruct (LastMod item) as [lastMod [e|]]; [intros H; inversion H; subst; by right|].
  cbv zeta.
  destruct (Size item) as [size [e|]], (negb (String.eqb etag EmptyString));
    (destruct (mget "Content-Type" metadata) as [[]|];
     [cbn [as_string]; rewrite ?bind_Done, ?bind_Panic..|];
     [| | |destruct (mget "content-type" metadata) as [[]|];
           [cbn [as_string]; rewrite ?bind_Done, ?bind_Panic..|];
           [| | |destruct (negb (String.eqb _ EmptyString));
                 [|destruct (isDir item) as [[|]|]; rewrite ?bind_Done, ?bind_Panic]]]);
    intros H; inversion H; subst; left; exact E0.
Qed.

Lemma elem_of_codes (n : Z) (codes : list Z) :
  existsb (Z.eqb n) codes = true → n ∈ codes.
Proof.
  intros H. apply existsb_exists in H as (x & Hin & Hx).
  apply Z.eqb_eq in Hx as ->. by apply list_elem_of_In.
Qed.

Lemma status_in_prepareResponse (rt : Runtime) obj stream item :
  status_in [200; 500] (prepareResponse rt obj stream item).
Proof.
  destruct (prepareResponse rt obj stream item) as [res|p] eqn:E; [|done].
  apply prepareResponse_status in E as [E|E]; simpl; rewrite E;
    by apply elem_of_codes.
Qed.

Lemma status_in_weaken codes codes' r :
  (∀ n, n ∈ codes → n ∈ codes') → status_in codes r → status_in codes' r.
Proof. intros H. destruct r; simpl; auto. Qed.

Lemma Head_status (rt : Runtime) obj cache :
  status_in [200; 404; 500; 503] (Head rt obj cache).1.
Proof.
  unfold Head. destruct (getClient rt obj cache) as [[client|err] cache'].
  2:{ by apply elem_of_codes. }
  destruct (GetItem client (getKey obj)) as [item|err].
  - eapply status_in_weaken; [|apply status_in_prepareResponse].
    intros n Hn. apply elem_of_cons in Hn as [->|Hn]; [by apply elem_of_codes|].
    apply list_elem_of_singleton in Hn as ->. by apply elem_of_codes.
  - destruct (is_ErrNotFound err); by apply elem_of_codes.
Qed.

(** X3. [Get] and [Head] answer with 200, 404, 500 or 503 and with no other
    status, whatever the backend holds. *)
Theorem Get_Head_statuses (rt : Runtime) (obj : object.FileObject) (cache : Cache) :
  status_in [200; 404; 500; 503] (Get rt obj cache).1
  ∧ status_in [200; 404; 500; 503] (Head rt obj cache).1.
Proof.
  split; [|apply Head_status].
  unfold Get. destruct (getClient rt obj cache) as [[client|err] cache'].
  2:{ by apply elem_of_codes. }
  destruct (GetItem client (getKey obj)) as [item|err].
  2:{ destruct (is_ErrNotFound err); by apply elem_of_codes. }
  cbn [fst]. destruct (isDir item) as [[|]|p]; [by apply elem_of_codes| |done].
  rewrite bind_Done. cbn [negb].
  destruct (Open item) as [reader|err]; [|by apply elem_of_codes].
  eapply status_in_weaken; [|apply status_in_prepareResponse].
  intros n Hn. apply elem_of_cons in Hn as [->|Hn]; [by apply elem_of_codes|].
  apply list_elem_of_singleton in Hn as ->. by apply elem_of_codes.
Qed.


(** X5. [List] answers with 200, 404, 500 or 503, and with 404 for the
    local-meta kind only: for every other kind a listing is never refused
    as not found. *)
Theorem List_statuses (rt : Runtime) (obj : object.FileObject) (maxKeys : Z)
    (x prefix marker : string) (cache : Cache) :
  status_in [200; 404; 500; 503] (List rt obj maxKeys x prefix marker cache).1
  ∧ (config.Kind (object.Storage obj) ≠ "local-meta" →
     status_in [200; 500; 503] (List rt obj maxKeys x prefix marker cache).1).
Proof.
  unfold List. destruct (getClient rt obj cache) as [[client|err] cache'].
  2:{ split; [|intros _]; by apply elem_of_codes. }
  cbv zeta.
  destruct (String.eqb_spec (config.Kind (object.Storage obj)) "local-meta") as [Ek|Ek].
  - split; [|done]. rewrite andb_true_r.
    match goal with |- context [if ?b then (Done (response.NewString _ _), _) else _] =>
      destruct b end; [by apply elem_of_codes|].
    destruct (Items client _ marker maxKeys) as [[items resultMarker]|err];
      [|by apply elem_of_codes].
    cbn [fst]. destruct (List_loop _ _ _ _) as [[result seen]|p]; [|done].
    rewrite bind_Done. destruct (xml_Marshal_error rt result); by apply elem_of_codes.
  - rewrite andb_false_r.
    destruct (Items client _ marker maxKeys) as [[items resultMarker]|err].
    2:{ split; [|intros _]; by apply elem_of_codes. }
    cbn [fst]. destruct (List_loop _ _ _ _) as [[result seen]|p]; [|done].
    rewrite bind_Done.
    destruct (xml_Marshal_error rt result); split; try intros _; by apply elem_of_codes.
Qed.

(** X6. Every operation leaves the cache that resolving the client leaves:
    none evicts an entry or adds one of its own. *)
Theorem operations_leave_cache (rt : Runtime)
    (Put : Container → string → Stream → Z → gmap string Value → result Item)
    (obj : object.FileObject) (cache : Cache) :
  (Get rt obj cache).2 = (getClient rt obj cache).2
  ∧ (Head rt obj cache).2 = (getClient rt obj cache).2
  ∧ (Delete rt obj cache).2 = (getClient rt obj cache).2
  ∧ (∀ maxKeys x prefix marker,
       (List rt obj maxKeys x prefix marker cache).2 = (getClient rt obj cache).2)
  ∧ (∀ metaHeaders contentLen body,
       (SetObject rt Put obj metaHeaders contentLen body cache).2
       = (getClient rt obj cache).2).
Proof.
  assert (HH : ∀ c, (Head rt obj c).2 = (getClient rt obj c).2).
  { intros c. unfold Head. destruct (getClient rt obj c) as [[client|err] cache']; [|done].
    destruct (GetItem client (getKey obj)) as [item|err]; [done|].
    by destruct (is_ErrNotFound err). }
  split; [|split; [apply HH|split; [|split]]].
  - unfold Get. destruct (getClient rt obj cache) as [[client|err] cache']; [|done].
    destruct (GetItem client (getKey obj)) as [item|err]; [done|].
    by destruct (is_ErrNotFound err).
  - unfold Delete.
    destruct (getClient rt obj cache) as [[client|err] cache'] eqn:Hc; [|done].
    specialize (HH cache'). rewrite (getClient_cached _ _ _ _ _ Hc) in HH.
    destruct (Head rt obj cache') as [[resHead|p] cache2]; cbn [snd] in *; [|done].
    destruct (_ =? 200); [by destruct (RemoveItem _ _)|]. by destruct (_ =? 404).
  - intros maxKeys x prefix marker. unfold List.
    destruct (getClient rt obj cache) as [[client|err] cache']; [|done].
    cbv zeta.
    match goal with |- context [if ?b then (Done (response.NewString _ _), _) else _] =>
      destruct b end; [done|].
    by destruct (Items client _ marker maxKeys) as [[items resultMarker]|err].
  - intros metaHeaders contentLen body. unfold SetObject.
    destruct (getClient rt obj cache) as [[client|err] cache']; [|done].
    cbv zeta. by destruct (_ && _ && _).
Qed.

(** *** Lower-casing *)

Lemma lower_byte_idem c : lower_byte (lower_byte c) = lower_byte c.
Proof.
  destruct c as [[] [] [] [] [] [] [] []]; reflexivity.
Qed.

Lemma ToLower_idem s : ToLower (ToLower s) = ToLower s.
Proof. induction s as [|c s IH]; simpl; [done|]. by rewrite lower_byte_idem, IH. Qed.

Lemma ToLower_app s t : ToLower (s +:+ t) = ToLower s +:+ ToLower t.
Proof. induction s as [|c s IH]; simpl; [done|]. by rewrite IH. Qed.

Lemma lower_case_ToLower s : lower_case (ToLower s).
Proof. apply ToLower_idem. Qed.

Lemma lower_case_cons c s : lower_case (String c s) ↔ lower_byte c = c ∧ lower_case s.
Proof.
  unfold lower_case. simpl. split.
  - intros H. by inversion H as [[H1 H2]]; rewrite H1, H2.
  - intros [-> ->]. done.
Qed.

Lemma lower_case_from n s : lower_case s → lower_case (from n s).
Proof.
  revert s. induction n as [|n IH]; intros s; [by destruct s|].
  destruct s as [|c s]; [done|]. intros H. apply lower_case_cons in H as [_ H].
  simpl. by apply IH.
Qed.

Lemma lower_case_Replace1 s old : lower_case s → lower_case (Replace1 s old EmptyString).
Proof.
  induction s as [|c s IH]; intros H; simpl.
  - destruct (HasPrefix "" old); [|done]. by apply lower_case_from.
  - destruct (HasPrefix (String c s) old).
    + apply (lower_case_from (String.length old) (String c s)). exact H.
    + apply lower_case_cons in H as [Hc Hs]. apply lower_case_cons. auto.
Qed.

Lemma lower_case_app_r s t : lower_case (s +:+ t) → lower_case t.
Proof.
  induction s as [|c s IH]; [done|]. simpl. intros H.
  apply lower_case_cons in H as [_ H]. auto.
Qed.

Lemma stored_key_lower_case kind k : lower_case (stored_key kind k).
Proof.
  unfold stored_key. destruct (String.eqb kind "s3").
  - apply lower_case_Replace1, lower_case_ToLower.
  - apply lower_case_ToLower.
Qed.

(** *** Inbound translation, further *)

(** X7. Inbound translation panics exactly when a header it keeps has no
    value, and then with an index out of range; a header it does not keep
    may be empty. *)
Theorem prepareMetadata_panics (obj : object.FileObject)
    (metaHeaders : list (string * list string)) :
  if has_values (config.Kind (object.Storage obj)) metaHeaders
  then ∃ m, prepareMetadata obj metaHeaders = Done m
  else prepareMetadata obj metaHeaders = Panic IndexOutOfRange.
Proof.
  destruct (has_values _ metaHeaders) eqn:E.
  - destruct (prepareMetadata_loop_spec _ metaHeaders ∅ E) as (m & Hm & _).
    by exists m.
  - by apply prepareMetadata_no_value.
Qed.

(** X8. Whatever inbound translation stores is stored under a key without
    upper-case letters and is a string, for every kind. *)
Theorem prepareMetadata_keys_lower_case (obj : object.FileObject)
    (metaHeaders : list (string * list string)) (m : gmap string Value) :
  prepareMetadata obj metaHeaders = Done m →
  ∀ key val, m !! key = Some val → lower_case key ∧ ∃ s, val = VString s.
Proof.
  intros Hm key val Hl.
  destruct (has_values (config.Kind (object.Storage obj)) metaHeaders) eqn:E.
  2:{ apply prepareMetadata_no_value in E. congruence. }
  destruct (prepareMetadata_loop_spec _ metaHeaders ∅ E) as (m' & Hm' & Honly & _).
  unfold prepareMetadata in Hm. rewrite Hm' in Hm. inversion Hm; subst m'.
  destruct (Honly key val Hl) as [Hin|(k & x & vs & _ & _ & -> & ->)].
  - by rewrite lookup_empty in Hin.
  - split; [apply stored_key_lower_case|by exists x].
Qed.

Lemma prepareMetadata_keys_lower_case_witness :
  prepareMetadata (sample_object "local" "" "k") sample_headers
    = Done {["x-amz-meta-color" := VString "red"; "content-type" := VString "text/plain";
             "etag" := VString "abc"]}
  ∧ lower_case "x-amz-meta-color".
Proof.
  assert (H : prepareMetadata (sample_object "local" "" "k") sample_headers
              = Done {["x-amz-meta-color" := VString "red";
                       "content-type" := VString "text/plain";
                       "etag" := VString "abc"]}) by reflexivity.
  split; [exact H|].
  exact (proj1 (prepareMetadata_keys_lower_case _ _ _ H "x-amz-meta-color"
                  (VString "red") eq_refl)).
Defined.

(** *** Outbound translation, further *)

Lemma HasPrefix_x_ToLower k :
  HasPrefix k "x-" = true → HasPrefix (ToLower k) "x-" = true.
Proof.
  destruct k as [|c [|d k]]; simpl; try done.
  - by rewrite andb_false_r.
  - destruct (Ascii.eqb_spec c "x") as [->|]; [|done].
    destruct (Ascii.eqb_spec d "-") as [->|]; [|done]. done.
Qed.

Lemma Set_other res k s name :
  ToLower k ≠ name →
  response.Headers (response.Set_ res k s) !! name = response.Headers res !! name.
Proof. intros H. simpl. by rewrite lookup_insert_ne. Qed.

Lemma Set_translated res k s name :
  translated (ToLower k) = true → translated name = false →
  response.Headers (response.Set_ res k s) !! name = response.Headers res !! name.
Proof. intros Hk Hn. apply Set_other. intros <-. congruence. Qed.

Lemma parseMetadata_pass_other metadata name : ∀ res res',
  translated name = false →
  parseMetadata_pass metadata res = Done res' →
  response.Headers res' !! name = response.Headers res !! name.
Proof.
  induction metadata as [|[k v] rest IH]; intros res res' Hn H.
  { by inversion H. }
  rewrite parseMetadata_pass_cons in H.
  apply bind_inv in H as (res1 & H1 & H). apply bind_inv in H as (res2 & H2 & H).
  rewrite (IH _ _ Hn H).
  assert (response.Headers res1 !! name = response.Headers res !! name) as <-.
  { destruct (String.eqb_spec (ToLower k) "cache-control") as [E|_].
    - apply bind_inv in H1 as (s & _ & H1). inversion H1; subst.
      apply Set_translated; [|done]. rewrite ToLower_idem, E. done.
    - by inversion H1. }
  destruct (HasPrefix (ToLower k) "x-") eqn:Ex.
  - apply bind_inv in H2 as (s & _ & H2). inversion H2; subst.
    apply Set_translated; [|done]. unfold translated.
    rewrite (HasPrefix_x_ToLower _ Ex). by rewrite !orb_true_r.
  - by inversion H2.
Qed.

Lemma parseMetadata_s3_other metadata name : ∀ res res',
  translated name = false →
  parseMetadata_s3 metadata res = Done res' →
  response.Headers res' !! name = response.Headers res !! name.
Proof.
  induction metadata as [|[k v] rest IH]; intros res res' Hn H.
  { by inversion H. }
  rewrite parseMetadata_s3_cons in H.
  apply bind_inv in H as (s & _ & H). rewrite (IH _ _ Hn H).
  destruct (String.eqb_spec k "cache-control") as [->|_]; [by apply Set_translated|].
  destruct (String.eqb_spec k "content-type") as [->|_]; [by apply Set_translated|].
  cbn [orb]. by apply Set_translated.
Qed.

Lemma parseMetadata_pass_frame metadata : ∀ res res',
  parseMetadata_pass metadata res = Done res' →
  response.ContentLength res' = response.ContentLength res
  ∧ response.body res' = response.body res.
Proof.
  induction metadata as [|[k v] rest IH]; intros res res' H.
  { by inversion H. }
  rewrite parseMetadata_pass_cons in H.
  apply bind_inv in H as (res1 & H1 & H). apply bind_inv in H as (res2 & H2 & H).
  destruct (IH _ _ H) as [-> ->].
  assert (response.ContentLength res1 = response.ContentLength res
          ∧ response.body res1 = response.body res) as [<- <-].
  { destruct (String.eqb _ "cache-control").
    - apply bind_inv in H1 as (s & _ & H1). by inversion H1.
    - by inversion H1. }
  destruct (HasPrefix _ "x-").
  - apply bind_inv in H2 as (s & _ & H2). by inversion H2.
  - by inversion H2.
Qed.

Lemma parseMetadata_s3_frame metadata : ∀ res res',
  parseMetadata_s3 metadata res = Done res' →
  response.ContentLength res' = response.ContentLength res
  ∧ response.body res' = response.body res.
Proof.
  induction metadata as [|[k v] rest IH]; intros res res' H.
  { by inversion H. }
  rewrite parseMetadata_s3_cons in H.
  apply bind_inv in H as (s & _ & H). destruct (IH _ _ H) as [-> ->].
  by destruct (_ || _).
Qed.

Lemma parseMetadata_frame obj metadata res res' :
  parseMetadata obj metadata res = Done res' →
  response.ContentLength res' = response.ContentLength res
  ∧ response.body res' = response.body res.
Proof.
  intros H. unfold parseMetadata in H.
  apply bind_inv in H as (res1 & H1 & H).
  destruct (parseMetadata_pass_frame _ _ _ H1) as [<- <-].
  destruct (String.eqb _ "s3").
  - by eapply parseMetadata_s3_frame.
  - by inversion H.
Qed.

Lemma parseMetadata_other obj metadata res res' name :
  parseMetadata obj metadata res = Done res' →
  translated name = false →
  response.Headers res' !! name = response.Headers res !! name.
Proof.
  intros H Hn. unfold parseMetadata in H.
  apply bind_inv in H as (res1 & H1 & H).
  rewrite <- (parseMetadata_pass_other _ _ _ _ Hn H1).
  destruct (String.eqb _ "s3").
  - by eapply parseMetadata_s3_other.
  - by inversion H.
Qed.

(** X9. Outbound translation writes no header other than cache-control,
    content-type and names that start with x-: every other header of the
    response, ETag and Last-Modified among them, is left as it was; outside
    the s3 kind content-type is left as it was too. *)
Theorem parseMetadata_writes (obj : object.FileObject)
    (metadata : list (string * Value)) (res res' : response.Response) :
  parseMetadata obj metadata res = Done res' →
  (∀ name, translated name = false →
     response.Headers res' !! name = response.Headers res !! name)
  ∧ (config.Kind (object.Storage obj) ≠ "s3" →
     response.ContentType res' = response.ContentType res)
  ∧ response.StatusCode res' = response.StatusCode res
  ∧ response.ContentLength res' = response.ContentLength res
  ∧ response.body res' = response.body res.
Proof.
  intros H. split; [|split; [|split; [|split]]].
  - intros name Hn. by eapply parseMetadata_other.
  - intros Hk. unfold parseMetadata in H.
    apply bind_inv in H as (res1 & H1 & H).
    apply parseMetadata_pass_content_type in H1. rewrite <- H1.
    destruct (String.eqb_spec (config.Kind (object.Storage obj)) "s3"); [done|].
    by inversion H.
  - by eapply parseMetadata_StatusCode.
  - by apply parseMetadata_frame in H as [? ?].
  - by apply parseMetadata_frame in H as [? ?].
Qed.

Lemma parseMetadata_writes_witness :
  let obj := sample_object "local" "" "k" in
  let metadata := [("X-Robots", VString "none"); ("Content-Type", VString "text/plain")] in
  let res := response.Set_ (response.New 200 None) "ETag" "abc" in
  parseMetadata obj metadata res = Done (response.Set_ res "x-robots" "none")
  ∧ response.Headers (response.Set_ res "x-robots" "none") !! "etag" = Some "abc"
  ∧ response.ContentType (response.Set_ res "x-robots" "none") = None.
Proof.
  intros obj metadata res.
  assert (H : parseMetadata obj metadata res = Done (response.Set_ res "x-robots" "none"))
    by reflexivity.
  split; [exact H|].
  destruct (parseMetadata_writes obj metadata res _ H) as (H1 & H2 & _).
  split.
  - rewrite (H1 "etag" eq_refl). reflexivity.
  - rewrite H2; [reflexivity|]. intros E. discriminate E.
Defined.

Lemma parseMetadata_pass_panic metadata : ∀ res p,
  parseMetadata_pass metadata res = Panic p →
  p = TypeAssertion ∧ all_strings metadata = false.
Proof.
  induction metadata as [|[k v] rest IH]; intros res p H; [done|].
  rewrite parseMetadata_pass_cons in H. unfold all_strings. cbn [forallb snd].
  destruct v as [s| |].
  - cbn [as_string] in H. rewrite !bind_Done in H.
    destruct (String.eqb _ "cache-control"), (HasPrefix _ "x-");
      rewrite ?bind_Done in H; by apply IH in H.
  - split; [|done].
    destruct (String.eqb _ "cache-control"), (HasPrefix _ "x-");
      cbn [as_string] in H; rewrite ?bind_Done, ?bind_Panic in H;
      try (by inversion H); by apply IH in H as [? _].
  - split; [|done].
    destruct (String.eqb _ "cache-control"), (HasPrefix _ "x-");
      cbn [as_string] in H; rewrite ?bind_Done, ?bind_Panic in H;
      try (by inversion H); by apply IH in H as [? _].
Qed.

Lemma parseMetadata_pass_strings metadata : ∀ res,
  all_strings metadata = true → ∃ res', parseMetadata_pass metadata res = Done res'.
Proof.
  induction metadata as [|[k v] rest IH]; intros res H; [by eexists|].
  unfold all_strings in H. cbn [forallb snd] in H.
  destruct v as [s| |]; try done. rewrite parseMetadata_pass_cons.
  cbn [as_string]. rewrite !bind_Done.
  destruct (String.eqb _ "cache-control"), (HasPrefix _ "x-");
    rewrite ?bind_Done; by apply IH.
Qed.

Lemma parseMetadata_s3_strings metadata : ∀ res,
  if all_strings metadata
  then ∃ res', parseMetadata_s3 metadata res = Done res'
  else parseMetadata_s3 metadata res = Panic TypeAssertion.
Proof.
  induction metadata as [|[k v] rest IH]; intros res; [by eexists|].
  rewrite parseMetadata_s3_cons. unfold all_strings. cbn [forallb snd].
  destruct v as [s| |]; [|done..]. cbn [as_string andb]. rewrite bind_Done.
  apply IH.
Qed.

Lemma parseMetadata_s3_not_strings obj metadata res :
  config.Kind (object.Storage obj) = "s3" →
  all_strings metadata = false →
  parseMetadata obj metadata res = Panic TypeAssertion.
Proof.
  intros Hk E. unfold parseMetadata. rewrite Hk.
  change (("s3" =? "s3")%string) with true. cbv iota.
  destruct (parseMetadata_pass metadata res) as [res1|p] eqn:E1.
  - rewrite bind_Done. pose proof (parseMetadata_s3_strings metadata res1) as H.
    by rewrite E in H.
  - rewrite bind_Panic. by apply parseMetadata_pass_panic in E1 as [-> _].
Qed.

(** X10. For the s3 kind outbound translation asserts every stored value to
    be a string: it returns when all of them are strings and panics on a
    failed type assertion as soon as one is not, whatever its key. A
    boolean is_dir flag, which the directory test reads, is such a value. *)
Theorem parseMetadata_s3_values (obj : object.FileObject)
    (metadata : list (string * Value)) (res : response.Response) :
  config.Kind (object.Storage obj) = "s3" →
  if all_strings metadata
  then ∃ res', parseMetadata obj metadata res = Done res'
  else parseMetadata obj metadata res = Panic TypeAssertion.
Proof.
  intros Hk. destruct (all_strings metadata) eqn:E.
  - unfold parseMetadata. rewrite Hk.
    change (("s3" =? "s3")%string) with true. cbv iota.
    destruct (parseMetadata_pass_strings metadata res E) as (res1 & ->).
    rewrite bind_Done. pose proof (parseMetadata_s3_strings metadata res1) as H.
    by rewrite E in H.
  - by apply parseMetadata_s3_not_strings.
Qed.

Lemma parseMetadata_s3_values_witness :
  config.Kind (object.Storage (sample_object "s3" "" "k")) = "s3"
  ∧ all_strings [("is_dir", VBool false); ("color", VString "red")] = false
  ∧ parseMetadata (sample_object "s3" "" "k")
      [("is_dir", VBool false); ("color", VString "red")] (response.New 200 None)
    = Panic TypeAssertion.
Proof.
  split; [reflexivity|]. split; [reflexivity|].
  exact (parseMetadata_s3_values (sample_object "s3" "" "k")
           [("is_dir", VBool false); ("color", VString "red")]
           (response.New 200 None) eq_refl).
Defined.

(** X11. For the s3 kind, [Head] panics on every fetched item whose metadata
    holds a value that is not a string, and [Get] does when the item is not
    a directory and its stream opens. *)
Theorem Head_s3_typed_metadata (rt : Runtime) (obj : object.FileObject)
    (cache cache' : Cache) (client : Container) (item : Item)
    (metadata : list (string * Value)) :
  config.Kind (object.Storage obj) = "s3" →
  getClient rt obj cache = (Ok client, cache') →
  GetItem client (getKey obj) = Ok item →
  Metadata item = Ok metadata →
  all_strings metadata = false →
  Head rt obj cache = (Panic TypeAssertion, cache')
  ∧ (∀ reader, isDir item = Done false → Open item = Ok reader →
       Get rt obj cache = (Panic TypeAssertion, cache')).
Proof.
  intros Hk Hc Hi Hm Ha.
  assert (Hp : ∀ stream, prepareResponse rt obj stream item = Panic TypeAssertion).
  { intros stream. unfold prepareResponse. rewrite Hm.
    by rewrite (parseMetadata_s3_not_strings obj metadata _ Hk Ha). }
  split.
  - unfold Head. by rewrite Hc, Hi, Hp.
  - intros reader Hd Ho. unfold Get. rewrite Hc, Hi, Hd, bind_Done. cbn [negb].
    by rewrite Ho, Hp.
Qed.

Lemma Head_s3_typed_metadata_witness :
  let item := sample_item "k" "k" 3 [("is_dir", VBool false)] in
  let c := sample_container [item] None in
  let rt := sample_runtime (Ok c) in
  let obj := sample_object "s3" "" "k" in
  config.Kind (object.Storage obj) = "s3"
  ∧ getClient rt obj ∅ = (Ok c, {["hash-1" := c]})
  ∧ GetItem c (getKey obj) = Ok item
  ∧ Metadata item = Ok [("is_dir", VBool false)]
  ∧ all_strings [("is_dir", VBool false)] = false
  ∧ Head rt obj ∅ = (Panic TypeAssertion, {["hash-1" := c]})
  ∧ Head rt (sample_object "local" "" "k") ∅
    = (prepareResponse rt (sample_object "local" "" "k") None item, {["hash-1" := c]}).
Proof.
  intros item c rt obj.
  split; [reflexivity|]. split; [reflexivity|]. split; [reflexivity|].
  split; [reflexivity|]. split; [reflexivity|]. split; [|reflexivity].
  exact (proj1 (Head_s3_typed_metadata rt obj ∅ {["hash-1" := c]} c item
                  [("is_dir", VBool false)] eq_refl eq_refl eq_refl eq_refl eq_refl)).
Defined.

Lemma HasPrefix_app a b : HasPrefix (a +:+ b) a = true.
Proof. induction a as [|c a IH]; simpl; [done|]. by rewrite Ascii.eqb_refl, IH. Qed.

Lemma parseMetadata_pass_single name v res :
  lower_case name →
  parseMetadata_pass [(name, VString v)] res
  = Done (if String.eqb name "cache-control" || HasPrefix name "x-"
          then response.Set_ res name v else res).
Proof.
  intros Hl. rewrite parseMetadata_pass_cons. rewrite Hl. cbn [as_string parseMetadata_pass].
  destruct (String.eqb_spec name "cache-control") as [->|Hcc].
  - reflexivity.
  - rewrite !bind_Done. cbn [orb]. destruct (HasPrefix name "x-"); reflexivity.
Qed.

Lemma parseMetadata_single_s3 obj name v res :
  config.Kind (object.Storage obj) = "s3" →
  lower_case name →
  parseMetadata obj [(name, VString v)] res
  = Done (response.Set_
            (if String.eqb name "cache-control" || HasPrefix name "x-"
             then response.Set_ res name v else res)
            (s3_header name) v).
Proof.
  intros Hk Hl. unfold parseMetadata. rewrite Hk.
  change (("s3" =? "s3")%string) with true. cbv iota.
  rewrite (parseMetadata_pass_single name v res Hl), bind_Done.
  rewrite parseMetadata_s3_cons. cbn [as_string parseMetadata_s3].
  rewrite bind_Done. unfold s3_header.
  destruct (_ || _); reflexivity.
Qed.

(** X12. For the s3 kind a single custom header x-amz-meta-NAME, in any
    letter case and with any values, is stored under NAME and read back as
    the response header x-amz-meta-NAME with its first value; when NAME
    itself starts with x- it is read back under NAME as well. The prefix is
    lost when NAME is cache-control or content-type: the header then comes
    back as cache-control or content-type. *)
Theorem custom_header_roundtrip_s3 (obj : object.FileObject) (res : response.Response)
    (k name v : string) (vs : list string) :
  config.Kind (object.Storage obj) = "s3" →
  ToLower k = "x-amz-meta-" +:+ name →
  ∃ stored, prepareMetadata obj [(k, v :: vs)] = Done stored
    ∧ ∀ l, l ≡ₚ map_to_list stored →
        ∃ res', parseMetadata obj l res = Done res'
          ∧ response.Headers res'
            = if String.eqb name "cache-control" || String.eqb name "content-type"
              then <[name := v]> (response.Headers res)
              else <["x-amz-meta-" +:+ name := v]>
                     (if HasPrefix name "x-" then <[name := v]> (response.Headers res)
                      else response.Headers res).
Proof.
  intros Hk Hn.
  assert (Hl : lower_case name).
  { apply (lower_case_app_r "x-amz-meta-"). rewrite <- Hn. apply lower_case_ToLower. }
  exists {[name := VString v]}. split.
  { unfold prepareMetadata. rewrite Hk, prepareMetadata_step_kept.
    - unfold stored_key. change (("s3" =? "s3")%string) with true. cbv iota.
      rewrite Hn, Replace1_prefix. reflexivity.
    - unfold kept. rewrite Hn. reflexivity. }
  intros l Hp. rewrite map_to_list_singleton in Hp.
  apply Permutation_singleton_r in Hp as ->.
  rewrite (parseMetadata_single_s3 obj name v res Hk Hl).
  eexists. split; [reflexivity|]. unfold s3_header. cbn [response.Headers response.Set_].
  destruct (String.eqb_spec name "cache-control") as [->|Hcc].
  { cbn. by rewrite insert_insert_eq. }
  cbn [orb]. destruct (String.eqb_spec name "content-type") as [->|Hct]; [reflexivity|].
  assert (ToLower ("x-amz-meta-" +:+ name) = "x-amz-meta-" +:+ name) as ->.
  { rewrite ToLower_app, Hl. reflexivity. }
  destruct (HasPrefix name "x-"); [|reflexivity].
  cbn [response.Headers response.Set_]. by rewrite Hl.
Qed.

Lemma custom_header_roundtrip_s3_witness :
  let obj := sample_object "s3" "" "k" in
  config.Kind (object.Storage obj) = "s3"
  ∧ ToLower "X-Amz-Meta-Content-Type" = "x-amz-meta-" +:+ "content-type"
  ∧ ∃ stored, prepareMetadata obj [("X-Amz-Meta-Content-Type", ["a/b"; "c/d"])]
                = Done stored
      ∧ ∀ l, l ≡ₚ map_to_list stored →
          ∃ res', parseMetadata obj l (response.New 200 None) = Done res'
            ∧ response.Headers res' = <["content-type" := "a/b"]> ∅.
Proof.
  intros obj. split; [reflexivity|]. split; [reflexivity|].
  exact (custom_header_roundtrip_s3 obj (response.New 200 None)
           "X-Amz-Meta-Content-Type" "content-type" "a/b" ["c/d"] eq_refl eq_refl).
Defined.

(** X13. On the 200 that [Get] and [Head] build for an item, the header
    Last-Modified is the item's modification time, ETag is the item's etag
    and is absent when the etag is empty, and the content length is the
    item's size when the size is read; stored metadata overrides none of
    them. *)
Theorem prepareResponse_item_headers (rt : Runtime) (obj : object.FileObject)
    (stream : option Stream) (item : Item) (metadata : list (string * Value))
    (etag : string) (lastMod : Time) (res : response.Response) :
  Metadata item = Ok metadata →
  ETag item = (etag, None) →
  LastMod item = (lastMod, None) →
  prepareResponse rt obj stream item = Done res →
  response.Headers res !! "last-modified" = Some (FormatHTTP rt lastMod)
  ∧ response.Headers res !! "etag"
    = (if String.eqb etag EmptyString then None else Some etag)
  ∧ response.ContentLength res
    = match Size item with
      | (size, None) => size
      | (_, Some _) => response.ContentLength (response.New 200 stream)
      end.
Proof.
  intros Hm He Hl. unfold prepareResponse. rewrite Hm.
  destruct (parseMetadata obj metadata (response.New 200 stream)) as [r0|p] eqn:E0;
    [|done].
  pose proof (parseMetadata_other _ _ _ _ "etag" E0 eq_refl) as Hetag.
  simpl in Hetag. rewrite lookup_empty in Hetag.
  destruct (parseMetadata_frame _ _ _ _ E0) as [Hcl _].
  rewrite bind_Done, He, Hl. cbv zeta.
  destruct (Size item) as [size [e|]], (String.eqb_spec etag EmptyString) as [->|Hne];
    cbn [negb];
    (destruct (mget "Content-Type" metadata) as [[]|];
     [cbn [as_string]; rewrite ?bind_Done, ?bind_Panic..|];
     [| | |destruct (mget "content-type" metadata) as [[]|];
           [cbn [as_string]; rewrite ?bind_Done, ?bind_Panic..|];
           [| | |destruct (negb (String.eqb _ EmptyString));
                 [|destruct (isDir item) as [[|]|]; rewrite ?bind_Done, ?bind_Panic]]]);
    intros H; inversion H; subst; clear H;
    cbn [response.Headers response.ContentLength response.SetContentType
         response.Set_ response.SetContentLength];
    (split; [|split]);
    rewrite ?(lookup_insert_ne _ "content-type"), ?lookup_insert_eq,
            ?(lookup_insert_ne _ "last-modified"), ?lookup_insert_eq by done;
    first [done | exact Hetag | exact Hcl].
Qed.

Lemma prepareResponse_item_headers_witness :
  let item := sample_item "k" "k" 3 [("etag", VString "stored")] in
  let rt := sample_runtime (Ok (sample_container [item] None)) in
  let obj := sample_object "local" "" "k" in
  let res := response.Set_
               (response.Set_ (response.SetContentLength (response.New 200 None) 3)
                  "ETag" "etag-1")
               "Last-Modified" "Thu, 01 Jan 1970 00:00:00 GMT" in
  prepareResponse rt obj None item = Done res
  ∧ response.Headers res !! "last-modified" = Some "Thu, 01 Jan 1970 00:00:00 GMT"
  ∧ response.Headers res !! "etag" = Some "etag-1"
  ∧ response.ContentLength res = 3.
Proof.
  intros item rt obj res. split; [reflexivity|].
  exact (prepareResponse_item_headers rt obj None item [("etag", VString "stored")]
           "etag-1" 0 res eq_refl eq_refl eq_refl eq_refl).
Defined.

(** *** Writes *)

Lemma getKey_suffix obj :
  config.Kind (object.Storage obj) = "s3" →
  HasSuffix (getKey obj) "/" = String.eqb (getKey obj) "/".
Proof.
  intros Hk. unfold getKey. rewrite Hk. change (("s3" =? "b2")%string) with false.
  cbv iota.
  destruct (cleaned_suffix _ (Join_cleaned
              [config.PathPrefix (object.Storage obj); object.Key obj])) as [H|H].
  - rewrite H. symmetry. apply String.eqb_neq. intros E. rewrite E in H. done.
  - rewrite H. reflexivity.
Qed.

(** X14. For the s3 kind [Set] leaves out the write, and answers an empty
    200, only for a body of length zero under the root key /: a key that
    names a directory, as dir/ does, reaches the backend without its last
    separator and is written like any object. *)
Theorem SetObject_directory (rt : Runtime)
    (Put : Container → string → Stream → Z → gmap string Value → result Item)
    (obj : object.FileObject) (metaHeaders : list (string * list string))
    (contentLen : Z) (body : Stream) (cache cache' : Cache) (client : Container) :
  getClient rt obj cache = (Ok client, cache') →
  SetObject rt Put obj metaHeaders contentLen body cache
  = (if String.eqb (config.Kind (object.Storage obj)) "s3" && (contentLen =? 0)
        && String.eqb (getKey obj) "/"
     then Done (response.NewNoContent 200)
     else
       metadata ← prepareMetadata obj metaHeaders;
       match Put client (getKey obj) body contentLen metadata with
       | Err err => Done (response.NewError 500 err)
       | Ok _ => Done (response.SetContentType (response.NewNoContent 200)
                         (Header_Get metaHeaders "Content-Type"))
       end,
     cache').
Proof.
  intros Hc. unfold SetObject. rewrite Hc. cbv zeta.
  destruct (String.eqb_spec (config.Kind (object.Storage obj)) "s3") as [Hk|Hk];
    [|reflexivity].
  rewrite (getKey_suffix obj Hk). by destruct (_ && _ && _).
Qed.

Lemma SetObject_directory_witness :
  let c := sample_container [] None in
  let rt := sample_runtime (Ok c) in
  let Put := fun (_ : Container) (key : string) (_ : Stream) (_ : Z)
                 (_ : gmap string Value) =>
               Err (ErrOther key) : result Item in
  getClient rt (sample_object "s3" "" "dir/") ∅ = (Ok c, {["hash-1" := c]})
  ∧ SetObject rt Put (sample_object "s3" "" "dir/") [] 0 EmptyString ∅
    = (Done (response.NewError 500 (ErrOther "dir")), {["hash-1" := c]})
  ∧ SetObject rt Put (sample_object "s3" "" "/") [] 0 EmptyString ∅
    = (Done (response.NewNoContent 200), {["hash-1" := c]}).
Proof.
  intros c rt Put. split; [reflexivity|]. split.
  - exact (SetObject_directory rt Put (sample_object "s3" "" "dir/") [] 0 EmptyString
             ∅ {["hash-1" := c]} c eq_refl).
  - reflexivity.
Defined.

(** X15. A write that reaches the backend panics on an index out of range
    when a header that is kept has no value, and the backend is then not
    called; otherwise it answers 500 with the error of the backend, or an
    empty 200 whose content type is the first value of the request header
    Content-Type. *)
Theorem SetObject_outcomes (rt : Runtime)
    (Put : Container → string → Stream → Z → gmap string Value → result Item)
    (obj : object.FileObject) (metaHeaders : list (string * list string))
    (contentLen : Z) (body : Stream) (cache cache' : Cache) (client : Container) :
  getClient rt obj cache = (Ok client, cache') →
  String.eqb (config.Kind (object.Storage obj)) "s3" && (contentLen =? 0)
    && String.eqb (getKey obj) "/" = false →
  if has_values (config.Kind (object.Storage obj)) metaHeaders
  then ∃ metadata,
         prepareMetadata obj metaHeaders = Done metadata
         ∧ SetObject rt Put obj metaHeaders contentLen body cache
           = (Done match Put client (getKey obj) body contentLen metadata with
                   | Err err => response.NewError 500 err
                   | Ok _ => response.SetContentType (response.NewNoContent 200)
                               (Header_Get metaHeaders "Content-Type")
                   end, cache')
  else SetObject rt Put obj metaHeaders contentLen body cache
       = (Panic IndexOutOfRange, cache').
Proof.
  intros Hc Hs. unfold SetObject. rewrite Hc. cbv zeta.
  assert (Hs' : String.eqb (config.Kind (object.Storage obj)) "s3" && (contentLen =? 0)
                && HasSuffix (getKey obj) "/" = false).
  { destruct (String.eqb_spec (config.Kind (object.Storage obj)) "s3") as [Hk|Hk];
      [|done]. by rewrite (getKey_suffix obj Hk). }
  rewrite Hs'.
  destruct (has_values _ metaHeaders) eqn:E.
  - destruct (prepareMetadata_loop_spec _ metaHeaders ∅ E) as (m & Hm & _).
    exists m. split; [exact Hm|]. unfold prepareMetadata. rewrite Hm, bind_Done.
    by destruct (Put client _ _ _ _).
  - by rewrite (prepareMetadata_no_value _ _ E).
Qed.

Lemma SetObject_outcomes_witness :
  let c := sample_container [] None in
  let rt := sample_runtime (Ok c) in
  let Put := fun (_ : Container) (_ : string) (_ : Stream) (_ : Z)
                 (_ : gmap string Value) =>
               Err (ErrOther "full") : result Item in
  let obj := sample_object "local" "" "k" in
  getClient rt obj ∅ = (Ok c, {["hash-1" := c]})
  ∧ has_values "local" [("ETag", [])] = false
  ∧ SetObject rt Put obj [("ETag", [])] 3 "abc" ∅ = (Panic IndexOutOfRange, {["hash-1" := c]}).
Proof.
  intros c rt Put obj. split; [reflexivity|]. split; [reflexivity|].
  exact (SetObject_outcomes rt Put obj [("ETag", [])] 3 "abc" ∅ {["hash-1" := c]} c
           eq_refl eq_refl).
Defined.

(** X16. [Set] answers with 200, 500 or 503 and with no other status. *)
Theorem SetObject_statuses (rt : Runtime)
    (Put : Container → string → Stream → Z → gmap string Value → result Item)
    (obj : object.FileObject) (metaHeaders : list (string * list string))
    (contentLen : Z) (body : Stream) (cache : Cache) :
  status_in [200; 500; 503] (SetObject rt Put obj metaHeaders contentLen body cache).1.
Proof.
  unfold SetObject. destruct (getClient rt obj cache) as [[client|err] cache'].
  2:{ by apply elem_of_codes. }
  cbv zeta. destruct (_ && _ && _); [by apply elem_of_codes|].
  cbn [fst]. destruct (prepareMetadata obj metaHeaders) as [m|p]; [|done].
  rewrite bind_Done. destruct (Put client _ _ _ _) as [item|err]; by apply elem_of_codes.
Qed.

(** *** Empty objects *)

(** X17. An object of size zero whose metadata has neither an is_dir flag
    nor a content type is taken for a directory: [Get] answers it with a
    404 of type application/xml without a body and does not open it,
    whatever its name. *)
Theorem Get_empty_object (rt : Runtime) (obj : object.FileObject)
    (cache cache' : Cache) (client : Container) (item : Item)
    (metadata : list (string * Value)) :
  getClient rt obj cache = (Ok client, cache') →
  GetItem client (getKey obj) = Ok item →
  Metadata item = Ok metadata →
  mget "is_dir" metadata = None →
  mget "content-type" metadata = None →
  Size item = (0, None) →
  Get rt obj cache
  = (Done (response.SetContentType (response.NewNoContent 404) "application/xml"),
     cache').
Proof.
  intros Hc Hi Hm Hd Ht Hs. unfold Get. rewrite Hc, Hi.
  unfold isDir. rewrite Hm, Hd, Ht, Hs. reflexivity.
Qed.

Lemma Get_empty_object_witness :
  let item := sample_item "notes.txt" "notes.txt" 0 [("x-amz-meta-color", VString "red")] in
  let c := sample_container [item] None in
  let rt := sample_runtime (Ok c) in
  let obj := sample_object "local" "" "notes.txt" in
  getClient rt obj ∅ = (Ok c, {["hash-1" := c]})
  ∧ GetItem c (getKey obj) = Ok item
  ∧ Size item = (0, None)
  ∧ Get rt obj ∅
    = (Done (response.SetContentType (response.NewNoContent 404) "application/xml"),
       {["hash-1" := c]}).
Proof.
  intros item c rt obj. split; [reflexivity|]. split; [reflexivity|].
  split; [reflexivity|].
  exact (Get_empty_object rt obj ∅ {["hash-1" := c]} c item
           [("x-amz-meta-color", VString "red")] eq_refl eq_refl eq_refl eq_refl eq_refl
           eq_refl).
Defined.

(** *** The shape of a listing *)

Lemma append_slash_ne (p : string) : p +:+ "/" ≠ EmptyString.
Proof. by destruct p. Qed.

(** What one turn of the loop appends. *)
Lemma List_item_shape (rt : Runtime) prefix result seen item st' :
  List_item rt prefix (result, seen) item = Done st' →
  ∃ (key cp : string) (c : ascii),
    (cp = EmptyString ∨ cp = key)
    ∧ Contents st'.1
      = Contents result
        ++ (let key' := if Ascii.eqb c "/" then key +:+ "/" else key in
            if negb (String.eqb key' EmptyString)
            then [{| cKey := key'; StorageClass := "STANDARD";
                     LastModified := FormatRFC3339 rt (LastMod item).1;
                     cETag := (ETag item).1;
                     cSize := if Ascii.eqb c "/" then 0 else (Size item).1 |}]
            else [])
    ∧ CommonPrefixes st'.1
      = CommonPrefixes result
        ++ (if negb (String.eqb cp EmptyString)
            then [{| cpPrefix := cp +:+ "/" |}] else []).
Proof.
  rewrite List_item_unfold. intros H.
  apply bind_inv in H as ([[key cp] seen'] & H1 & H).
  apply bind_inv in H as (c & Hc & H).
  exists key, cp, c.
  assert (Hcp : cp = EmptyString ∨ cp = key).
  { destruct (_ <? _)%nat.
    - cbv zeta in H1. destruct (seen !! _) eqn:E; inversion H1; subst; auto.
    - apply bind_inv in H1 as (d & _ & H1).
      destruct (seen !! Name item) eqn:E; [inversion H1; subst; auto|].
      destruct d; inversion H1; subst; auto. }
  split; [exact Hcp|]. clear H1 Hc Hcp.
  destruct (Ascii.eqb c "/"); cbv zeta iota beta in H |- *;
    [destruct (negb (String.eqb (key +:+ "/") EmptyString))
    |destruct (negb (String.eqb key EmptyString))];
    destruct (negb (String.eqb cp EmptyString));
    inversion H; subst; cbn [fst snd Contents CommonPrefixes];
    by rewrite ?app_nil_r.
Qed.

Lemma List_item_well_formed (rt : Runtime) prefix st item st' :
  List_item rt prefix st item = Done st' →
  prefixes_seen st → well_formed st.1 →
  well_formed st'.1
  ∧ (length (Contents st'.1) ≤ S (length (Contents st.1)))%nat.
Proof.
  intros H Hseen (_ & Hc & Hp & Hlen).
  pose proof (List_item_prefixes_seen _ _ _ _ _ H Hseen) as [Hnd _].
  destruct st as [result seen].
  apply List_item_shape in H as (key & cp & c & Hcp & HC & HP).
  cbn [fst] in *. unfold well_formed. rewrite HC, HP. rewrite HP in Hnd. clear HC HP.
  set (key' := if Ascii.eqb c "/" then key +:+ "/" else key).
  cbv zeta. fold key'.
  assert (Hkey : cp ≠ EmptyString → key' ≠ EmptyString ∧ (key' = cp ∨ key' = cp +:+ "/")).
  { intros Hne. destruct Hcp as [-> | ->]; [done|]. subst key'.
    destruct (Ascii.eqb c "/").
    - split; [apply append_slash_ne|by right].
    - split; [exact Hne|by left]. }
  split; [split; [done|split; [|split]]|].
  - intros e He. apply elem_of_app in He as [He|He]; [by apply Hc|].
    destruct (String.eqb_spec key' EmptyString) as [|Hne]; cbn [negb] in He.
    + by apply not_elem_of_nil in He.
    + apply list_elem_of_singleton in He as ->. done.
  - intros e He. apply elem_of_app in He as [He|He].
    + destruct (Hp e He) as (p & Hp1 & Hp2 & x & Hx & Hk).
      exists p. split; [done|]. split; [done|]. exists x. split; [|done].
      apply elem_of_app. by left.
    + destruct (String.eqb_spec cp EmptyString) as [|Hne]; cbn [negb] in He.
      { by apply not_elem_of_nil in He. }
      apply list_elem_of_singleton in He as ->.
      destruct (Hkey Hne) as [Hk1 Hk2].
      exists cp. split; [done|]. split; [done|].
      destruct (String.eqb_spec key' EmptyString) as [|_]; [done|]. cbn [negb].
      eexists. split; [apply elem_of_app; right; apply list_elem_of_singleton; reflexivity|].
      exact Hk2.
  - rewrite !length_app.
    destruct (String.eqb_spec cp EmptyString) as [|Hne]; cbn [negb length].
    + lia.
    + destruct (Hkey Hne) as [Hk1 _].
      destruct (String.eqb_spec key' EmptyString) as [|_]; [done|]. cbn [negb length]. lia.
  - rewrite length_app. destruct (negb (String.eqb key' _)); cbn [length]; lia.
Qed.

Lemma List_loop_well_formed (rt : Runtime) prefix items : ∀ st st',
  List_loop rt prefix items st = Done st' →
  prefixes_seen st → well_formed st.1 →
  well_formed st'.1
  ∧ (length (Contents st'.1) ≤ length (Contents st.1) + length items)%nat.
Proof.
  induction items as [|item rest IH]; intros st st' H Hseen Hw.
  { inversion H; subst. split; [done|]. lia. }
  cbn [List_loop] in H. apply bind_inv in H as (st1 & H1 & H).
  destruct (List_item_well_formed _ _ _ _ _ H1 Hseen Hw) as [Hw1 Hl1].
  pose proof (List_item_prefixes_seen _ _ _ _ _ H1 Hseen) as Hseen1.
  destruct (IH _ _ H Hseen1 Hw1) as [Hw' Hl'].
  split; [done|]. cbn [length]. lia.
Qed.

(** X18. Every listing document that [List] answers with is well formed: it
    names the bucket of the object, the joined prefix and the requested
    maximum; no common prefix is named twice; no content entry has the empty
    key; every common prefix is a non-empty stem followed by a separator, and
    the stem is listed among the contents too; and there are no more content
    entries than items the backend handed out. *)
Theorem List_well_formed (rt : Runtime) (obj : object.FileObject) (maxKeys : Z)
    (x prefix marker : string) (cache cache' : Cache) (res : response.Response)
    (result : listBucketResult) :
  List rt obj maxKeys x prefix marker cache = (Done res, cache') →
  response.body res = response.XMLBuf result →
  lName result = object.Bucket obj
  ∧ Prefix result = GoPath.Join [config.PathPrefix (object.Storage obj); prefix]
  ∧ MaxKeys result = maxKeys
  ∧ well_formed result
  ∧ ∃ client items resultMarker,
      getClient rt obj cache = (Ok client, cache')
      ∧ Items client (GoPath.Join [config.PathPrefix (object.Storage obj); prefix])
              marker maxKeys = Ok (items, resultMarker)
      ∧ (length (Contents result) ≤ length items)%nat.
Proof.
  intros H Hb. unfold List in H.
  destruct (getClient rt obj cache) as [[client|err] cache1].
  2:{ inversion H; subst. done. }
  cbv zeta in H.
  match type of H with context [if ?b then (Done (response.NewString _ _), _) else _] =>
    destruct b end.
  { inversion H; subst. done. }
  destruct (Items client _ marker maxKeys) as [[items resultMarker]|err] eqn:Hi.
  2:{ inversion H; subst. done. }
  inversion H as [[Hr Hcache]]. clear H.
  match type of Hr with context [List_loop rt ?pf items ?st] =>
    destruct (List_loop rt pf items st) as [[r seen]|q] eqn:El
  end; [|done].
  rewrite bind_Done in Hr.
  pose proof (List_loop_Done _ _ _ _ _ El) as ((H1 & H2 & _ & H4 & _) & _ & _).
  apply List_loop_well_formed in El as [Hw Hl].
  2:{ split; [apply NoDup_nil_2|]. intros cp Hin. by apply not_elem_of_nil in Hin. }
  2:{ split; [apply NoDup_nil_2|]. split; [|split; [|done]].
      - intros c Hin. by apply not_elem_of_nil in Hin.
      - intros c Hin. by apply not_elem_of_nil in Hin. }
  cbn [fst Contents lName Prefix MaxKeys length] in *.
  destruct (xml_Marshal_error rt r).
  { inversion Hr; subst. done. }
  inversion Hr; subst. simpl in Hb. inversion Hb; subst.
  split; [done|]. split; [done|]. split; [done|]. split; [done|].
  exists client, items, resultMarker. split; [done|]. split; [done|]. lia.
Qed.

Lemma List_well_formed_witness :
  let c := sample_container flat_items None in
  let res := response.SetContentType (response.NewBuf 200 flat_listing) "application/xml" in
  List (sample_runtime (Ok c)) (sample_object "s3" "" "a/") 1000 "/" "a/" "start" ∅
    = (Done res, {["hash-1" := c]})
  ∧ response.body res = response.XMLBuf flat_listing
  ∧ well_formed flat_listing.
Proof.
  intros c res. split; [exact List_flat_items|]. split; [reflexivity|].
  exact (proj1 (proj2 (proj2 (proj2
           (List_well_formed (sample_runtime (Ok c)) (sample_object "s3" "" "a/") 1000
              "/" "a/" "start" ∅ {["hash-1" := c]} res flat_listing
              List_flat_items eq_refl))))).
Defined.

Lemma HasPrefix_x_amz_meta s :
  HasPrefix s "x-amz-meta" = true →
  HasPrefix s "x-" = true ∧ String.eqb s "cache-control" = false.
Proof.
  destruct s as [|c s]; [done|]. cbn [HasPrefix].
  destruct (Ascii.eqb_spec c "x") as [->|]; [|done].
  destruct s as [|d s]; [done|]. cbn [HasPrefix andb].
  destruct (Ascii.eqb_spec d "-") as [->|]; [|done]. intros _. done.
Qed.

(** X19. Outside the s3 kind a single kept header is stored under its
    lower-cased name with its first value; translating the stored map back
    gives a custom header x-amz-meta-NAME back under that same lower-cased
    name, prefix included, and adds no header for a stored content type or
    etag. *)
Theorem metadata_roundtrip_other (obj : object.FileObject) (res : response.Response)
    (k v : string) (vs : list string) :
  config.Kind (object.Storage obj) ≠ "s3" →
  kept (config.Kind (object.Storage obj)) k = true →
  prepareMetadata obj [(k, v :: vs)] = Done {[ToLower k := VString v]}
  ∧ ∀ l, l ≡ₚ map_to_list ({[ToLower k := VString v]} : gmap string Value) →
      ∃ res', parseMetadata obj l res = Done res'
        ∧ response.Headers res'
          = if HasPrefix (ToLower k) "x-amz-meta"
            then <[ToLower k := v]> (response.Headers res)
            else response.Headers res.
Proof.
  intros Hk Hkept.
  assert (Hs : String.eqb (config.Kind (object.Storage obj)) "s3" = false)
    by by apply String.eqb_neq.
  split.
  { unfold prepareMetadata. rewrite prepareMetadata_step_kept by done.
    unfold stored_key. rewrite Hs. reflexivity. }
  intros l Hp. rewrite map_to_list_singleton in Hp.
  apply Permutation_singleton_r in Hp as ->.
  unfold parseMetadata.
  rewrite (parseMetadata_pass_single (ToLower k) v res (lower_case_ToLower k)), bind_Done, Hs.
  eexists. split; [reflexivity|].
  unfold kept in Hkept. rewrite Hs in Hkept. cbn [negb andb] in Hkept.
  destruct (HasPrefix (ToLower k) "x-amz-meta") eqn:Ex.
  - apply HasPrefix_x_amz_meta in Ex as [-> ->]. cbn [orb response.Headers response.Set_].
    by rewrite ToLower_idem.
  - cbn [orb] in Hkept. apply orb_true_iff in Hkept as [E|E];
      apply String.eqb_eq in E; rewrite E; reflexivity.
Qed.

Lemma metadata_roundtrip_other_witness :
  let obj := sample_object "local" "" "k" in
  config.Kind (object.Storage obj) ≠ "s3"
  ∧ kept "local" "ETag" = true
  ∧ prepareMetadata obj [("ETag", ["abc"])] = Done {["etag" := VString "abc"]}
  ∧ parseMetadata obj [("etag", VString "abc")] (response.New 200 None)
    = Done (response.New 200 None).
Proof.
  intros obj.
  assert (Hk : config.Kind (object.Storage obj) ≠ "s3") by (intros E; discriminate E).
  split; [exact Hk|]. split; [reflexivity|].
  destruct (metadata_roundtrip_other obj (response.New 200 None) "ETag" "abc" [] Hk eq_refl)
    as [H1 H2].
  split; [exact H1|reflexivity].
Defined.
